(** * A shallow embedding of the MCP demonstration server

    The development follows the two source files of the repository:
    - [server.js]: JSON-RPC 2.0 over STDIO (the [send]/[reply]/[error]/[notify]
      helpers, the seven method handlers and the [rl.on('line')] dispatcher);
    - the validation module: [escapeJsonPointer], [validateAgainstSchema],
      [createSimpleValidator].

    JavaScript values are modelled by the inductive type [JS.value]; the
    output stream and the timer queue are threaded through a small
    state-and-exception monad; the services of the host (JSON.parse, the
    file system, [path], the engine's diagnostics) are fields of the class
    [Host]. Strings are byte strings holding the UTF-8 encoding of the
    JavaScript string. *)

From Stdlib Require Import String Ascii List ZArith Bool Lia.
From Stdlib Require Import PrimFloat FloatOps SpecFloat FloatAxioms DecimalString.
Import ListNotations.
Set Warnings "-register-all".
Local Open Scope string_scope.

(* ================================================================== *)
(** ** JavaScript values and built-ins *)

Module JS.

(** The values that reach the server: what JSON.parse builds, plus
    [undefined] (the result of reading a missing property). The properties
    of an object are kept in enumeration order. *)
Inductive value : Type :=
| VUndef
| VNull
| VBool (b : bool)
| VNum (n : float)
| VStr (s : string)
| VArr (elems : list value)
| VObj (props : list (string * value)).

(** [typeof v] *)
Definition typeof (v : value) : string :=
  match v with
  | VUndef => "undefined"
  | VNull => "object"
  | VBool _ => "boolean"
  | VNum _ => "number"
  | VStr _ => "string"
  | VArr _ => "object"
  | VObj _ => "object"
  end.

(** [v === undefined] *)
Definition is_undefined (v : value) : bool :=
  match v with VUndef => true | _ => false end.

(** [v == null], the test behind [??] and [?.] *)
Definition nullish (v : value) : bool :=
  match v with VUndef | VNull => true | _ => false end.

(** [a ?? b] *)
Definition coalesce (a b : value) : value := if nullish a then b else a.

(** ToBoolean: [undefined], [null], [false], [0], [-0], [NaN] and the empty
    string are falsy. *)
Definition truthy (v : value) : bool :=
  match v with
  | VUndef | VNull => false
  | VBool b => b
  | VNum n => negb (PrimFloat.is_zero n || PrimFloat.is_nan n)
  | VStr s => negb (s =? "")
  | VArr _ | VObj _ => true
  end.

(** [v === "..."] against a string literal *)
Definition is_str (v : value) (s : string) : bool :=
  match v with
  | VStr x => x =? s
  | _ => false
  end.

Definition is_object (v : value) : bool :=
  match v with
  | VObj _ | VArr _ => true
  | _ => false
  end.

(** Own property of an object literal. *)
Fixpoint lookup (k : string) (props : list (string * value)) : option value :=
  match props with
  | [] => None
  | (k', v) :: rest => if k =? k' then Some v else lookup k rest
  end.

Definition has_own (k : string) (props : list (string * value)) : bool :=
  match lookup k props with Some _ => true | None => false end.

(** [v.k] on a value that is neither [null] nor [undefined], for a property
    name [k] that no built-in prototype defines. Every name the server reads
    is of that kind ([id], [method], [params], [clientInfo], [name],
    [arguments], [uri], [op], [a], [b], [required]): on an array, a string,
    a number or a boolean such a read gives [undefined]. *)
Definition get (v : value) (k : string) : value :=
  match v with
  | VObj props => match lookup k props with Some x => x | None => VUndef end
  | _ => VUndef
  end.

(** [v?.k] *)
Definition opt_get (v : value) (k : string) : value :=
  if nullish v then VUndef else get v k.

(** Property names of [Object.prototype], inherited by every plain object. *)
Definition Object_prototype_names : list string :=
  [ "constructor"; "__defineGetter__"; "__defineSetter__"; "hasOwnProperty";
    "__lookupGetter__"; "__lookupSetter__"; "isPrototypeOf";
    "propertyIsEnumerable"; "toString"; "valueOf"; "__proto__";
    "toLocaleString" ].

(** String-keyed property names of [Array.prototype] (ECMAScript 2023). *)
Definition Array_prototype_names : list string :=
  [ "constructor"; "at"; "concat"; "copyWithin"; "fill"; "find"; "findIndex";
    "findLast"; "findLastIndex"; "lastIndexOf"; "pop"; "push"; "reverse";
    "shift"; "unshift"; "slice"; "sort"; "splice"; "includes"; "indexOf";
    "join"; "keys"; "entries"; "values"; "forEach"; "filter"; "flat";
    "flatMap"; "map"; "every"; "some"; "reduce"; "reduceRight";
    "toLocaleString"; "toString"; "toReversed"; "toSorted"; "toSpliced";
    "with" ].

Definition mem (k : string) (names : list string) : bool :=
  existsb (String.eqb k) names.

Definition is_digit (c : ascii) : bool :=
  let n := nat_of_ascii c in (48 <=? n)%nat && (n <=? 57)%nat.

Fixpoint digits_value (acc : nat) (s : string) : option nat :=
  match s with
  | EmptyString => Some acc
  | String c r =>
      if is_digit c then digits_value (10 * acc + (nat_of_ascii c - 48)) r
      else None
  end.

(** A canonical array index: a decimal numeral without leading zero. *)
Definition array_index (k : string) : option nat :=
  match k with
  | EmptyString => None
  | String c r =>
      if (nat_of_ascii c =? 48)%nat
      then (match r with EmptyString => Some 0%nat | _ => None end)
      else digits_value 0 k
  end.

(** [k in v] on an object or an array: own properties, then the prototype
    chain. [None] stands for the TypeError raised on a primitive. *)
Definition has_property (k : string) (v : value) : option bool :=
  match v with
  | VObj props => Some (has_own k props || mem k Object_prototype_names)
  | VArr elems =>
      Some ((match array_index k with
             | Some i => (i <? List.length elems)%nat
             | None => false
             end)
            || (k =? "length")
            || mem k Array_prototype_names
            || mem k Object_prototype_names)
  | _ => None
  end.

(** *** Strings *)

(** [s.startsWith(p)] *)
Definition startsWith (s p : string) : bool := String.prefix p s.

Fixpoint drop_prefix (p s : string) : option string :=
  match p with
  | EmptyString => Some s
  | String a p' =>
      match s with
      | EmptyString => None
      | String b s' => if Ascii.eqb a b then drop_prefix p' s' else None
      end
  end.

(** [s.replace(pat, rep)] with a string pattern: the first occurrence only.
    [rep] holds no [$] in the server's use. *)
Fixpoint replace (s pat rep : string) : string :=
  match drop_prefix pat s with
  | Some rest => rep ++ rest
  | None =>
      match s with
      | EmptyString => EmptyString
      | String c r => String c (replace r pat rep)
      end
  end.

Definition bytes (l : list nat) : string :=
  string_of_list_ascii (map ascii_of_nat l).

(** UTF-8 encodings of the code points that [trim] strips: WhiteSpace and
    LineTerminator of ECMAScript (U+0009..U+000D, U+0020, U+00A0, U+1680,
    U+2000..U+200A, U+2028, U+2029, U+202F, U+205F, U+3000, U+FEFF). *)
Definition whitespace_encodings : list (list nat) :=
  [ [9]; [10]; [11]; [12]; [13]; [32]; [194; 160]; [225; 154; 128];
    [226; 128; 128]; [226; 128; 129]; [226; 128; 130]; [226; 128; 131];
    [226; 128; 132]; [226; 128; 133]; [226; 128; 134]; [226; 128; 135];
    [226; 128; 136]; [226; 128; 137]; [226; 128; 138]; [226; 128; 168];
    [226; 128; 169]; [226; 128; 175]; [226; 129; 159]; [227; 128; 128];
    [239; 187; 191] ]%nat.

Fixpoint strip_first (encs : list (list nat)) (s : string) : option string :=
  match encs with
  | [] => None
  | e :: rest =>
      match drop_prefix (bytes e) s with
      | Some r => Some r
      | None => strip_first rest s
      end
  end.

Fixpoint strip_all (fuel : nat) (encs : list (list nat)) (s : string) : string :=
  match fuel with
  | O => s
  | S fuel' =>
      match strip_first encs s with
      | Some r => strip_all fuel' encs r
      | None => s
      end
  end.

Definition string_rev (s : string) : string :=
  string_of_list_ascii (rev (list_ascii_of_string s)).

Definition trimStart (s : string) : string :=
  strip_all (String.length s) whitespace_encodings s.

Definition trimEnd (s : string) : string :=
  string_rev
    (strip_all (String.length s) (map (@rev nat) whitespace_encodings)
       (string_rev s)).

(** [s.trim()] *)
Definition trim (s : string) : string := trimEnd (trimStart s).

(** *** Numbers *)

(** The integer denoted by a float, when it is integral and below 2^53 in
    magnitude. *)
Definition safe_integer (n : float) : option Z :=
  match Prim2SF n with
  | S754_zero _ => Some 0%Z
  | S754_finite sign m e =>
      let mag :=
        if (0 <=? e)%Z then Some (Z.pos m * 2 ^ e)%Z
        else if (Z.pos m mod 2 ^ (- e) =? 0)%Z
             then Some (Z.pos m / 2 ^ (- e))%Z
             else None in
      match mag with
      | Some z =>
          if (z <? 2 ^ 53)%Z then Some (if sign then (- z)%Z else z) else None
      | None => None
      end
  | _ => None
  end.

Definition decimal (z : Z) : string := NilZero.string_of_int (Z.to_int z).

End JS.
Export JS.

(* ================================================================== *)
(** ** The host: engine, file system and [path] *)

(** The TypeErrors the server's code can raise. *)
Inductive type_error : Type :=
| NotAFunction (callee : string)
| InOnPrimitive (key : string) (target : value)
| NotConvertible
| DestructureNull.

(** A thrown Error object; only its [message] is ever read. *)
Inductive exn : Type :=
| TypeError (t : type_error)
| FsError (message : string)
| RangeError (message : string).

Inductive result (A : Type) : Type :=
| Ok (a : A)
| Throw (e : exn).
Arguments Ok {A} a.
Arguments Throw {A} e.

Class Host : Type := {
  (** [JSON.parse]: [None] when it throws a SyntaxError *)
  JSON_parse : string -> option value;
  (** [Number::toString] outside the cases written out in
      [number_to_string] (fractions and large magnitudes) *)
  Number_toString : float -> string;
  (** the engine's text for the [message] of a TypeError *)
  TypeError_message : type_error -> string;
  path_resolve : string -> string;
  path_sep : string;
  path_join : string -> string -> string;
  fs_existsSync : string -> bool;
  (** [fs.readdirSync(dir, { withFileTypes: true })]: the error message, or
      the entries as pairs of [name] and [isFile()] *)
  fs_readdirSync : string -> string + list (string * bool);
  (** [fs.readFileSync(file, "utf8")]: the error message, or the text *)
  fs_readFileSync : string -> string + string
}.

(** The call stack of the engine. [JSON.stringify] and the [join] behind
    [String] of an array call themselves once per level of nesting, and the
    engine throws a RangeError when the stack runs out. How deep that is
    depends on the engine and on its settings, so the two tests are taken
    from the engine. *)
Class Stack : Type := {
  (** [JSON.stringify(v)] runs out of stack *)
  JSON_stringify_overflows : value -> bool;
  (** [String(v)] runs out of stack, [v] being an array *)
  String_overflows : value -> bool;
  (** the engine's text for the [message] of that RangeError *)
  RangeError_message : string
}.

(** An engine whose stack never runs out. The parts of this development
    that declare it as the instance in force state what the server does as
    long as the stack suffices; the last part is about any engine. *)
Definition unbounded_stack : Stack := {|
  JSON_stringify_overflows := fun _ => false;
  String_overflows := fun _ => false;
  RangeError_message := EmptyString
|}.

Section Engine.
Context {host : Host} {stack : Stack}.

(** [err.message] *)
Definition exn_message (e : exn) : string :=
  match e with
  | TypeError t => TypeError_message t
  | FsError m => m
  | RangeError m => m
  end.

(** [Number::toString] in radix 10 *)
Definition number_to_string (n : float) : string :=
  if PrimFloat.is_nan n then "NaN"
  else if PrimFloat.is_infinity n
       then (if PrimFloat.get_sign n then "-Infinity" else "Infinity")
       else match safe_integer n with
            | Some z => decimal z
            | None => Number_toString n
            end.

(** [String(v)] and the conversion in a template literal. A plain object
    goes through [Object.prototype.toString] unless an own (hence
    non-callable) [toString] property hides it, in which case no method
    yields a primitive and a TypeError is thrown; an array goes through
    [join], which renders [null] and [undefined] as the empty string and
    throws a RangeError when the nesting exhausts the stack. *)
Fixpoint to_string (v : value) : result string :=
  match v with
  | VUndef => Ok "undefined"
  | VNull => Ok "null"
  | VBool b => Ok (if b then "true" else "false")
  | VNum n => Ok (number_to_string n)
  | VStr s => Ok s
  | VArr elems =>
      if String_overflows v then Throw (RangeError RangeError_message)
      else
        (fix join (l : list value) : result string :=
           match l with
           | [] => Ok ""
           | x :: rest =>
               match (if nullish x then Ok "" else to_string x) with
               | Throw e => Throw e
               | Ok s =>
                   match rest with
                   | [] => Ok s
                   | _ :: _ =>
                       match join rest with
                       | Throw e => Throw e
                       | Ok r => Ok (s ++ "," ++ r)
                       end
                   end
               end
           end) elems
  | VObj props =>
      if has_own "toString" props then Throw (TypeError NotConvertible)
      else Ok "[object Object]"
  end.

Definition dquote : string := String (ascii_of_nat 34) EmptyString.

Definition hex_digit (n : nat) : ascii :=
  ascii_of_nat (if (n <? 10)%nat then 48 + n else 87 + n).

(** QuoteJSONString, one byte at a time. *)
Definition quote_byte (c : ascii) : string :=
  let n := nat_of_ascii c in
  if (n =? 8)%nat then "\b"
  else if (n =? 9)%nat then "\t"
  else if (n =? 10)%nat then "\n"
  else if (n =? 12)%nat then "\f"
  else if (n =? 13)%nat then "\r"
  else if (n =? 34)%nat then "\" ++ dquote
  else if (n =? 92)%nat then "\\"
  else if (n <? 32)%nat
       then "\u00" ++ String (hex_digit (n / 16)) (String (hex_digit (n mod 16)) EmptyString)
       else String c EmptyString.

Fixpoint quote_body (s : string) : string :=
  match s with
  | EmptyString => EmptyString
  | String c r => quote_byte c ++ quote_body r
  end.

Definition quote (s : string) : string := dquote ++ quote_body s ++ dquote.

(** [JSON.stringify(v)] without indentation; [None] is [undefined]. A member
    whose value is [undefined] is left out of an object and printed as
    [null] in an array; a number that is not finite is printed as [null]. *)
Fixpoint stringify (v : value) : option string :=
  match v with
  | VUndef => None
  | VNull => Some "null"
  | VBool b => Some (if b then "true" else "false")
  | VNum n => Some (if PrimFloat.is_finite n then number_to_string n else "null")
  | VStr s => Some (quote s)
  | VArr elems =>
      Some ("[" ++ String.concat ","
              ((fix items (l : list value) : list string :=
                  match l with
                  | [] => []
                  | x :: r =>
                      match stringify x with
                      | Some s => s :: items r
                      | None => "null" :: items r
                      end
                  end) elems) ++ "]")
  | VObj props =>
      Some ("{" ++ String.concat ","
              ((fix members (l : list (string * value)) : list string :=
                  match l with
                  | [] => []
                  | (k, x) :: r =>
                      match stringify x with
                      | Some s => (quote k ++ ":" ++ s) :: members r
                      | None => members r
                      end
                  end) props) ++ "}")
  end.

End Engine.

(* ================================================================== *)
(** ** server.js *)

Module Server.

(** *** The process: standard output and pending timers *)

(** The one callback the server ever hands to [setTimeout]. *)
Inductive callback : Type :=
| ListChangedNotifications.

Record world : Type := {
  stdout : list string;            (** chunks written, oldest first *)
  timers : list (callback * Z)     (** callbacks with their delay in ms *)
}.

Definition M (A : Type) : Type := world -> result A * world.

Definition ret {A} (a : A) : M A := fun w => (Ok a, w).

Definition bind {A B} (m : M A) (k : A -> M B) : M B :=
  fun w =>
    match m w with
    | (Ok a, w') => k a w'
    | (Throw e, w') => (Throw e, w')
    end.

Definition throw {A} (e : exn) : M A := fun w => (Throw e, w).

Definition lift {A} (r : result A) : M A := fun w => (r, w).

(** [try { body } catch (err) { handler }] *)
Definition try_catch {A} (body : M A) (handler : exn -> M A) : M A :=
  fun w =>
    match body w with
    | (Ok a, w') => (Ok a, w')
    | (Throw e, w') => handler e w'
    end.

(** [process.stdout.write(chunk)] *)
Definition write (chunk : string) : M unit :=
  fun w => (Ok tt, {| stdout := stdout w ++ [chunk]; timers := timers w |}).

(** [setTimeout(cb, ms)] *)
Definition setTimeout (cb : callback) (ms : Z) : M unit :=
  fun w => (Ok tt, {| stdout := stdout w; timers := timers w ++ [(cb, ms)] |}).

Declare Scope js_scope.
Delimit Scope js_scope with js.
Notation "x <- m ;; k" := (bind m (fun x => k))
  (at level 61, m at next level, right associativity) : js_scope.
Notation "m ;;; k" := (bind m (fun _ => k))
  (at level 61, right associativity) : js_scope.
Local Open Scope js_scope.

Section WithHost.
Context {host : Host} {stack : Stack}.

(** *** Configuration *)

Definition PROTOCOL_VERSION : string := "2025-06-18".

Definition ROOTS : list string := [ path_resolve "demo-root" ].

Definition obj (props : list (string * value)) : value := VObj props.
Definition str (s : string) : value := VStr s.

Definition tools : value :=
  VArr [ obj [ ("name", str "calculator_arithmetic");
               ("title", str "Calculator (basic arithmetic)");
               ("description",
                 str "Soma, subtração, multiplicação e divisão de dois números.");
               ("inputSchema",
                 obj [ ("type", str "object");
                       ("required", VArr [str "op"; str "a"; str "b"]);
                       ("properties",
                         obj [ ("op", obj [ ("type", str "string");
                                            ("enum", VArr [str "add"; str "sub";
                                                           str "mul"; str "div"]) ]);
                               ("a", obj [ ("type", str "number") ]);
                               ("b", obj [ ("type", str "number") ]) ]) ]) ] ].

Record prompt : Type := {
  prompt_name : string;
  prompt_title : string;
  prompt_description : string;
  prompt_inputSchema : value;
  prompt_template : string
}.

Definition prompts : list prompt :=
  [ {| prompt_name := "hello-template";
       prompt_title := "Hello Prompt";
       prompt_description := "Saudação com variável {{name}}";
       prompt_inputSchema :=
         obj [ ("type", str "object");
               ("required", VArr [str "name"]);
               ("properties", obj [ ("name", obj [ ("type", str "string") ]) ]) ];
       prompt_template :=
         "Olá, {{name}}! Bem-vindo ao Servidor MCP de demonstração." |} ].

(** [scanResources]: the regular files directly under each existing root. *)
Fixpoint scan_entries (root : string) (entries : list (string * bool)) : list value :=
  match entries with
  | [] => []
  | (e_name, e_isFile) :: rest =>
      if e_isFile
      then obj [ ("uri", str ("file://" ++ path_join root e_name));
                 ("mimeType", str "text/plain");
                 ("name", str e_name);
                 ("description", str "Arquivo de demonstração") ]
           :: scan_entries root rest
      else scan_entries root rest
  end.

Fixpoint scan_roots (roots : list string) (out : list value) : result (list value) :=
  match roots with
  | [] => Ok out
  | root :: rest =>
      if negb (fs_existsSync root) then scan_roots rest out
      else match fs_readdirSync root with
           | inl message => Throw (FsError message)
           | inr entries => scan_roots rest (out ++ scan_entries root entries)
           end
  end.

Definition scanResources : result (list value) := scan_roots ROOTS [].

(** *** JSON-RPC helpers *)

(** The source appends the two-character string written ["\\n"] in
    JavaScript: a backslash followed by the letter n. *)
Definition send_terminator : string := bytes [92; 110]%nat.

Definition serialize (message : value) : string :=
  match stringify message with
  | Some s => s
  | None => "undefined"
  end.

(** [JSON.stringify] runs before [write] is called: when it throws, nothing
    is written. *)
Definition send (message : value) : M unit :=
  if JSON_stringify_overflows message then throw (RangeError RangeError_message)
  else write (serialize message ++ send_terminator).

Definition reply (id result : value) : M unit :=
  send (obj [ ("jsonrpc", str "2.0"); ("id", id); ("result", result) ]).

Definition error (id : value) (code : float) (message : string) (data : value) : M unit :=
  send (obj [ ("jsonrpc", str "2.0"); ("id", id);
              ("error", obj [ ("code", VNum code); ("message", str message);
                              ("data", data) ]) ]).

Definition notify (method : string) (params : value) : M unit :=
  send (obj [ ("jsonrpc", str "2.0"); ("method", str method); ("params", params) ]).

(** The body of the arrow function passed to [setTimeout]. *)
Definition run_callback (cb : callback) : M unit :=
  match cb with
  | ListChangedNotifications =>
      notify "notifications/tools/list_changed" (obj []) ;;;
      notify "notifications/resources/list_changed" (obj []) ;;;
      notify "notifications/prompts/list_changed" (obj [])
  end.

(** *** Helpers of the handlers *)

(** [\w] *)
Definition is_word (c : ascii) : bool :=
  let n := nat_of_ascii c in
  ((48 <=? n) && (n <=? 57) || (65 <=? n) && (n <=? 90)
   || (97 <=? n) && (n <=? 122) || (n =? 95))%nat.

(** The longest run of word characters in front of [s], and what follows. *)
Fixpoint take_word (s : string) : string * string :=
  match s with
  | EmptyString => (EmptyString, EmptyString)
  | String c r =>
      if is_word c
      then let (w, rest) := take_word r in (String c w, rest)
      else (EmptyString, s)
  end.

(** A match of [/\{\{(\w+)\}\}/] at the very start of [s]: the captured key
    and the text after the match. The greedy run is the only candidate, as
    the character after a shorter run is a word character, not a brace. *)
Definition match_placeholder (s : string) : option (string * string) :=
  match drop_prefix "{{" s with
  | None => None
  | Some r =>
      let (k, r') := take_word r in
      if k =? "" then None
      else match drop_prefix "}}" r' with
           | Some rest => Some (k, rest)
           | None => None
           end
  end.

(** [s.replace(/\{\{(\w+)\}\}/g, (_, k) => f(k))]: matches are found left to
    right and the replacement text is not scanned again. *)
Fixpoint replace_placeholders (fuel : nat) (f : string -> result string)
    (s : string) : result string :=
  match fuel with
  | O => Ok s
  | S fuel' =>
      match match_placeholder s with
      | Some (k, rest) =>
          match f k with
          | Throw e => Throw e
          | Ok v =>
              match replace_placeholders fuel' f rest with
              | Throw e => Throw e
              | Ok r => Ok (v ++ r)
              end
          end
      | None =>
          match s with
          | EmptyString => Ok EmptyString
          | String c r =>
              match replace_placeholders fuel' f r with
              | Throw e => Throw e
              | Ok r' => Ok (String c r')
              end
          end
      end
  end.

Definition render (template : string) (f : string -> result string) : result string :=
  replace_placeholders (S (String.length template)) f template.

(** [keys.some(k => !(k in vars))] *)
Fixpoint some_not_in (keys : list value) (vars : value) : result bool :=
  match keys with
  | [] => Ok false
  | k :: rest =>
      if negb (is_object vars)
      then Throw (TypeError (InOnPrimitive
                    (match k with VStr s => s | _ => EmptyString end) vars))
      else match to_string k with
           | Throw e => Throw e
           | Ok key =>
               match has_property key vars with
               | Some true => some_not_in rest vars
               | _ => Ok true
               end
           end
  end.

(** [schema?.required?.some(k => !(k in vars))], read as a condition *)
Definition required_missing (schema vars : value) : result bool :=
  match opt_get schema "required" with
  | VArr keys => some_not_in keys vars
  | VUndef | VNull => Ok false
  | _ => Throw (TypeError (NotAFunction "required.some"))
  end.

(** [roots.some(root => filePath.startsWith(root + sep))] *)
Definition some_root_contains (roots : list string) (sep filePath : string) : bool :=
  existsb (fun root => startsWith filePath (root ++ sep)) roots.

(** *** The method handlers *)

Definition handleInitialize (id params : value) : M unit :=
  let clientInfo := coalesce (opt_get params "clientInfo") (obj []) in
  let result :=
    obj [ ("protocolVersion", str PROTOCOL_VERSION);
          ("serverInfo", obj [ ("name", str "mcp-server-demo");
                               ("version", str "0.1.0") ]);
          ("capabilities",
            obj [ ("tools", obj [ ("listChanged", VBool true) ]);
                  ("resources", obj [ ("listChanged", VBool true) ]);
                  ("prompts", obj [ ("listChanged", VBool true) ]) ]) ] in
  reply id result ;;;
  setTimeout ListChangedNotifications 5000.

Definition handleToolsList (id : value) : M unit :=
  reply id (obj [ ("tools", tools) ]).

Definition tool_result (v : float) : value :=
  obj [ ("content", VArr [ obj [ ("type", str "text");
                                 ("text", str (number_to_string v)) ] ]);
        ("meta", obj [ ("value", VNum v) ]) ].

Definition handleToolsCall (id params : value) : M unit :=
  let p := coalesce params (obj []) in
  let name := get p "name" in
  let args := get p "arguments" in
  if is_str name "calculator_arithmetic" then
    let q := coalesce args (obj []) in
    let op := get q "op" in
    match get q "a", get q "b" with
    | VNum a, VNum b =>
        if is_str op "add" then reply id (tool_result (a + b)%float)
        else if is_str op "sub" then reply id (tool_result (a - b)%float)
        else if is_str op "mul" then reply id (tool_result (a * b)%float)
        else if is_str op "div" then
          if (b =? 0)%float then error id (-32000)%float "Divisão por zero" VUndef
          else reply id (tool_result (a / b)%float)
        else error id (-32602)%float "Operação inválida"
               (obj [ ("allowed", VArr [str "add"; str "sub"; str "mul"; str "div"]) ])
    | _, _ =>
        error id (-32602)%float "Parâmetros inválidos"
          (obj [ ("expected", str "numbers a,b") ])
    end
  else
    shown <- lift (to_string name) ;;
    error id (-32601)%float ("Tool não encontrada: " ++ shown) VUndef.

Definition handleResourcesList (id : value) : M unit :=
  resources <- lift scanResources ;;
  reply id (obj [ ("resources", VArr resources) ]).

Definition handleResourcesRead (id params : value) : M unit :=
  let uri := opt_get params "uri" in
  let invalid := error id (-32602)%float "URI inválida. Use file://" VUndef in
  if negb (truthy uri) then invalid
  else match uri with
       | VStr u =>
           if negb (startsWith u "file://") then invalid
           else
             let filePath := replace u "file://" "" in
             let allowed := some_root_contains ROOTS path_sep filePath in
             if negb allowed
             then error id (-32001)%float "Fora das raízes permitidas (roots)." VUndef
             else
               try_catch
                 (match fs_readFileSync filePath with
                  | inl message => throw (FsError message)
                  | inr data =>
                      reply id
                        (obj [ ("contents",
                                 VArr [ obj [ ("mimeType", str "text/plain");
                                              ("uri", uri);
                                              ("text", str data) ] ]) ])
                  end)
                 (fun e =>
                    error id (-32002)%float "Falha ao ler recurso"
                      (obj [ ("message", str (exn_message e)) ]))
       | _ => throw (TypeError (NotAFunction "uri.startsWith"))
       end.

Definition handlePromptsList (id : value) : M unit :=
  let list :=
    map (fun p => obj [ ("name", str (prompt_name p));
                        ("title", str (prompt_title p));
                        ("description", str (prompt_description p));
                        ("inputSchema", prompt_inputSchema p) ]) prompts in
  reply id (obj [ ("prompts", VArr list) ]).

Definition handlePromptsGet (id params : value) : M unit :=
  let name := opt_get params "name" in
  match find (fun p => is_str name (prompt_name p)) prompts with
  | None =>
      shown <- lift (to_string name) ;;
      error id (-32601)%float ("Prompt não encontrado: " ++ shown) VUndef
  | Some prompt =>
      let vars := coalesce (opt_get params "arguments") (obj []) in
      missing <- lift (required_missing (prompt_inputSchema prompt) vars) ;;
      if (missing : bool) then
        error id (-32602)%float "Argumentos ausentes para o prompt"
          (obj [ ("required", get (prompt_inputSchema prompt) "required") ])
      else
        rendered <- lift (render (prompt_template prompt)
                            (fun k => to_string (coalesce (get vars k) (str "")))) ;;
        reply id
          (obj [ ("prompt",
                   obj [ ("name", str (prompt_name prompt));
                         ("messages",
                           VArr [ obj [ ("role", str "system");
                                        ("content", str rendered) ] ]) ]) ])
  end.

(** *** The read loop *)

Definition parse_error : value :=
  obj [ ("jsonrpc", str "2.0");
        ("error", obj [ ("code", VNum (-32700)%float);
                        ("message", str "Parse error") ]) ].

(** The [switch (method)] of the listener. *)
Definition dispatch (id method params : value) : M unit :=
  if is_str method "initialize" then handleInitialize id params
  else if is_str method "tools/list" then handleToolsList id
  else if is_str method "tools/call" then handleToolsCall id params
  else if is_str method "resources/list" then handleResourcesList id
  else if is_str method "resources/read" then handleResourcesRead id params
  else if is_str method "prompts/list" then handlePromptsList id
  else if is_str method "prompts/get" then handlePromptsGet id params
  else if negb (is_undefined id) then
         shown <- lift (to_string method) ;;
         error id (-32601)%float ("Method not found: " ++ shown) VUndef
       else ret tt.

(** The statements after a successful [JSON.parse]: the destructuring, which
    throws on [null] outside any [try], then the guarded [switch]. *)
Definition on_message (msg : value) : M unit :=
  if nullish msg then throw (TypeError DestructureNull)
  else
    let id := get msg "id" in
    let method := get msg "method" in
    let params := get msg "params" in
    try_catch (dispatch id method params)
      (fun err =>
         if negb (is_undefined id)
         then error id (-32603)%float "Internal error"
                (obj [ ("message", str (exn_message err)) ])
         else ret tt).

(** The listener of [rl.on('line', ...)]. A [Throw] that leaves it is an
    uncaught exception. *)
Definition on_line (line : string) : M unit :=
  if trim line =? "" then ret tt
  else match JSON_parse line with
       | None => send parse_error
       | Some msg => on_message msg
       end.

(** Lines that arrive with no timer coming due in between are handled one
    after the other, until an exception escapes. *)
Fixpoint run (lines : list string) : M unit :=
  match lines with
  | [] => ret tt
  | line :: rest => on_line line ;;; run rest
  end.

(** *** The event loop *)

(** What the event loop hands to the program: a line read from the input,
    or a timer coming due. Every timer is set with the same delay, so the
    timers come due in the order they were set; how many lines arrive before
    a timer is due is up to the clock. *)
Inductive event : Type :=
| Line (line : string)
| Timeout.

(** The timer set first comes due: it leaves the list and its callback runs;
    without a pending timer nothing happens. *)
Definition fire : M unit :=
  fun w =>
    match timers w with
    | [] => (Ok tt, w)
    | (cb, _) :: pending =>
        run_callback cb {| stdout := stdout w; timers := pending |}
    end.

(** The events are handled one after the other, until an exception escapes
    a listener or a callback. *)
Fixpoint event_loop (events : list event) : M unit :=
  match events with
  | [] => ret tt
  | Line line :: rest => on_line line ;;; event_loop rest
  | Timeout :: rest => fire ;;; event_loop rest
  end.

End WithHost.
End Server.

(* ================================================================== *)
(** ** The validation module: the simplified internal validator *)

Module Validation.

(** What [value[key]] can be once [key in value] holds: data, or a member
    reached through the prototype chain of a plain object, which is either
    [Object.prototype] itself (through [__proto__]) or one of its methods. *)
Inductive slot : Type :=
| Data (v : value)
| ObjectPrototype
| NativeFunction (name : string).

(** [typeof value === 'object' && value !== null && !Array.isArray(value)] *)
Definition is_record (s : slot) : bool :=
  match s with
  | Data (VObj _) => true
  | ObjectPrototype => true
  | _ => false
  end.

(** [typeof value === 'number' && !Number.isNaN(value)] *)
Definition is_number (s : slot) : bool :=
  match s with
  | Data (VNum n) => negb (PrimFloat.is_nan n)
  | _ => false
  end.

(** [typeof value === 'string'] *)
Definition is_string (s : slot) : bool :=
  match s with
  | Data (VStr _) => true
  | _ => false
  end.

(** [key in value], for a [value] that passed [is_record] *)
Definition slot_in (key : string) (s : slot) : bool :=
  match s with
  | Data (VObj props) => has_own key props || mem key Object_prototype_names
  | ObjectPrototype => mem key Object_prototype_names
  | _ => false
  end.

(** [value[key]], for a [value] that passed [is_record] *)
Definition slot_get (s : slot) (key : string) : slot :=
  let inherited :=
    if key =? "__proto__" then ObjectPrototype
    else if mem key Object_prototype_names then NativeFunction key
    else Data VUndef in
  match s with
  | Data (VObj props) =>
      match lookup key props with
      | Some x => Data x
      | None => inherited
      end
  | ObjectPrototype =>
      if key =? "__proto__" then Data VNull
      else if mem key Object_prototype_names then NativeFunction key
      else Data VUndef
  | _ => Data VUndef
  end.

(** SameValueZero, the comparison of [Array.prototype.includes]. Objects and
    arrays are compared by identity, and a datum is never the very object
    written in a schema. *)
Definition same_value_zero (a b : value) : bool :=
  match a, b with
  | VUndef, VUndef => true
  | VNull, VNull => true
  | VBool x, VBool y => Bool.eqb x y
  | VNum x, VNum y => (x =? y)%float || (PrimFloat.is_nan x && PrimFloat.is_nan y)
  | VStr x, VStr y => x =? y
  | _, _ => false
  end.

(** [members.includes(value)] *)
Definition includes (members : list value) (s : slot) : bool :=
  match s with
  | Data v => existsb (same_value_zero v) members
  | _ => false
  end.

(** The part of a schema object the validator reads. [SAbsent] is a falsy
    schema; [ty] is [schema.type]; [required] is [Some] exactly when
    [schema.required] is an array; [properties] lists
    [Object.entries(schema.properties ?? {})]; [enum] is [Some] when
    [schema.enum] is present. *)
Inductive schema : Type :=
| SAbsent
| SNode (ty : value) (required : option (list string))
        (properties : list (string * schema)) (enum : option (list value)).

Inductive error_params : Type :=
| TypeParam (type : string)
| MissingProperty (missingProperty : string)
| AllowedValues (allowedValues : list value).

Record error_record : Type := {
  instancePath : string;
  keyword : string;
  params : error_params;
  message : string
}.

Definition type_error_record (path type : string) : error_record :=
  {| instancePath := path; keyword := "type"; params := TypeParam type;
     message := "must be " ++ type |}.

Definition required_error_record (path key : string) : error_record :=
  {| instancePath := path; keyword := "required"; params := MissingProperty key;
     message := "must have required property '" ++ key ++ "'" |}.

Definition enum_error_record (path : string) (members : list value) : error_record :=
  {| instancePath := path; keyword := "enum"; params := AllowedValues members;
     message := "must be equal to one of the allowed values" |}.

(** [s.replace(/c/g, rep)] for a one-character pattern *)
Fixpoint replace_char (c : ascii) (rep : string) (s : string) : string :=
  match s with
  | EmptyString => EmptyString
  | String x r =>
      if Ascii.eqb x c then rep ++ replace_char c rep r
      else String x (replace_char c rep r)
  end.

Definition escapeJsonPointer (s : string) : string :=
  replace_char "/" "~1" (replace_char "~" "~0" s).

(** The [for (const key of required)] loop. *)
Fixpoint check_required (value : slot) (path : string) (required : list string)
    (valid : bool) (errors : list error_record) : bool * list error_record :=
  match required with
  | [] => (valid, errors)
  | key :: rest =>
      if negb (slot_in key value)
      then check_required value path rest false
             (errors ++ [required_error_record path key])%list
      else check_required value path rest valid errors
  end.

Definition child_path (path key : string) : string :=
  if negb (path =? "") then path ++ "/" ++ escapeJsonPointer key
  else "/" ++ escapeJsonPointer key.

(** [validateAgainstSchema(value, schema, path, errors)]: the result, and the
    array [errors] after the pushes. *)
Fixpoint validateAgainstSchema (value : slot) (sch : schema) (path : string)
    (errors : list error_record) {struct sch} : bool * list error_record :=
  match sch with
  | SAbsent => (true, errors)
  | SNode ty required properties enum =>
      if is_str ty "object" then
        if negb (is_record value)
        then (false, (errors ++ [type_error_record path "object"])%list)
        else
          let required := match required with Some r => r | None => [] end in
          let (valid, errors) := check_required value path required true errors in
          (fix each_property (ps : list (string * schema)) (valid : bool)
               (errors : list error_record) : bool * list error_record :=
             match ps with
             | [] => (valid, errors)
             | (key, childSchema) :: rest =>
                 if slot_in key value then
                   let (ok, errors') :=
                     validateAgainstSchema (slot_get value key) childSchema
                       (child_path path key) errors in
                   each_property rest (if negb ok then false else valid) errors'
                 else each_property rest valid errors
             end) properties valid errors
      else
        let (valid, errors) :=
          if is_str ty "number" then
            if negb (is_number value)
            then (false, (errors ++ [type_error_record path "number"])%list)
            else (true, errors)
          else if is_str ty "string" then
            if negb (is_string value)
            then (false, (errors ++ [type_error_record path "string"])%list)
            else (true, errors)
          else (true, errors) in
        match enum with
        | Some members =>
            if negb (includes members value)
            then (false, (errors ++ [enum_error_record path members])%list)
            else (valid, errors)
        | None => (valid, errors)
        end
  end.

(** [createSimpleValidator(schema)]: the compiled validator applied to
    [data]; the second component is the field [validate.errors] it leaves. *)
Definition createSimpleValidator (sch : schema) (data : value)
    : bool * option (list error_record) :=
  let (isValid, errors) := validateAgainstSchema (Data data) sch "" [] in
  (isValid, match errors with [] => None | _ :: _ => Some errors end).

End Validation.

(* ================================================================== *)
(** ** The validation module: the registry of compiled validators *)

Module Registry.
Import Validation.

(** The keys of a [required] array, all of them strings. *)
Fixpoint string_keys (keys : list value) : option (list string) :=
  match keys with
  | [] => Some []
  | VStr k :: rest =>
      match string_keys rest with
      | Some ks => Some (k :: ks)
      | None => None
      end
  | _ :: _ => None
  end.

(** How [validateAgainstSchema] reads a schema value: a falsy value is no
    schema; of an object it reads [type], [required] (an array or nothing),
    the entries of [properties ?? {}] and [enum]; any other truthy value has
    none of these properties. [None] marks a schema outside what is
    modelled: a [required] key that is not a string, [properties] that is
    not an object, a truthy [enum] that is not an array. *)
Fixpoint read_schema (v : value) : option schema :=
  match v with
  | VObj props =>
      let ty := match lookup "type" props with Some x => x | None => VUndef end in
      let required :=
        match lookup "required" props with
        | Some (VArr keys) =>
            match string_keys keys with
            | Some ks => Some (Some ks)
            | None => None
            end
        | _ => Some None
        end in
      let enum :=
        match lookup "enum" props with
        | Some (VArr members) => Some (Some members)
        | Some x => if truthy x then None else Some None
        | None => Some None
        end in
      let properties :=
        (fix find (l : list (string * value)) : option (list (string * schema)) :=
           match l with
           | [] => Some []
           | (k, x) :: rest =>
               if "properties" =? k then
                 match x with
                 | VObj entries =>
                     (fix each (es : list (string * value))
                        : option (list (string * schema)) :=
                        match es with
                        | [] => Some []
                        | (key, child) :: more =>
                            match read_schema child, each more with
                            | Some c, Some cs => Some ((key, c) :: cs)
                            | _, _ => None
                            end
                        end) entries
                 | VUndef | VNull => Some []
                 | _ => None
                 end
               else find rest
           end) props in
      match required, properties, enum with
      | Some r, Some ps, Some e => Some (SNode ty r ps e)
      | _, _, _ => None
      end
  | _ => if truthy v then Some (SNode VUndef None [] None) else Some SAbsent
  end.

(** [map.set(key, x)] on a [Map] kept in insertion order; keys are compared
    by SameValueZero. *)
Fixpoint map_set (key x : value) (m : list (value * value)) : list (value * value) :=
  match m with
  | [] => [ (key, x) ]
  | (k, y) :: rest =>
      if same_value_zero key k then (k, x) :: rest
      else (k, y) :: map_set key x rest
  end.

(** [map.get(key)]; [None] is [undefined]. *)
Fixpoint map_get (key : value) (m : list (value * value)) : option value :=
  match m with
  | [] => None
  | (k, y) :: rest => if same_value_zero key k then Some y else map_get key rest
  end.

(** [compileEntries(entries, type)] with the embedded provider, the one in
    use when the package [ajv] cannot be imported: [compile] wraps the
    schema in [createSimpleValidator] and never throws. A compiled
    validator is kept as the schema it closes over. *)
Definition compileEntries (entries : list value) : list (value * value) :=
  fold_left
    (fun map entry =>
       if negb (truthy (opt_get entry "name"))
          || negb (truthy (opt_get entry "inputSchema"))
       then map
       else map_set (get entry "name") (get entry "inputSchema") map)
    entries [].

(** The two module variables [toolValidators] and [promptValidators]. *)
Record registry : Type := {
  toolValidators : list (value * value);
  promptValidators : list (value * value)
}.

(** [initializeValidators({ tools = [], prompts = [] } = {})] on an object
    whose [tools] and [prompts] are arrays or absent; [None] is the absent
    member, for which the default [[]] stands in. *)
Definition initializeValidators (tools prompts : option (list value)) : registry :=
  let tools := match tools with Some entries => entries | None => [] end in
  let prompts := match prompts with Some entries => entries | None => [] end in
  {| toolValidators := compileEntries tools;
     promptValidators := compileEntries prompts |}.

Definition getToolValidator (r : registry) (name : value) : option value :=
  map_get name (toolValidators r).

Definition getPromptValidator (r : registry) (name : value) : option value :=
  map_get name (promptValidators r).

(** A call [validate(data)] of a compiled validator: the verdict and the
    field [validate.errors] it leaves. *)
Definition run_validator (compiled : value) (data : value)
    : option (bool * option (list error_record)) :=
  match read_schema compiled with
  | Some sch => Some (createSimpleValidator sch data)
  | None => None
  end.

End Registry.

(* ================================================================== *)
(** ** A concrete host, to run the server on examples *)

Module Sample.

Definition LF : string := bytes [10]%nat.

Definition q (s : string) : string := dquote ++ s ++ dquote.

(** The README's request for 2 + 3, as one line of input. *)
Definition line_add : string :=
  "{" ++ q "jsonrpc" ++ ":" ++ q "2.0" ++ "," ++ q "id" ++ ":3,"
  ++ q "method" ++ ":" ++ q "tools/call" ++ "," ++ q "params" ++ ":{"
  ++ q "name" ++ ":" ++ q "calculator_arithmetic" ++ ","
  ++ q "arguments" ++ ":{" ++ q "op" ++ ":" ++ q "add" ++ ","
  ++ q "a" ++ ":2," ++ q "b" ++ ":3}}}".

Definition msg_add : value :=
  VObj [ ("jsonrpc", VStr "2.0"); ("id", VNum 3); ("method", VStr "tools/call");
         ("params",
           VObj [ ("name", VStr "calculator_arithmetic");
                  ("arguments",
                    VObj [ ("op", VStr "add"); ("a", VNum 2); ("b", VNum 3) ]) ]) ].

(** The right operand of [in] as V8 prints it in its diagnostic. *)
Definition operand_text (v : value) : string :=
  match v with
  | VNum n => match safe_integer n with Some z => decimal z | None => "?" end
  | VStr s => s
  | VBool true => "true"
  | VBool false => "false"
  | _ => EmptyString
  end.

(** A POSIX host started in [/srv], whose [demo-root] holds [hello.txt].
    [JSON_parse] is a table: it knows the text ["null"] and [line_add], and
    rejects every other line. [Number_toString] is a placeholder: the examples
    print integers only. The diagnostics are those of V8. *)
Definition host : Host := {|
  JSON_parse := fun line =>
    if line =? "null" then Some VNull
    else if line =? line_add then Some msg_add
    else None;
  Number_toString := fun _ => "?";
  TypeError_message := fun t =>
    match t with
    | NotAFunction callee => callee ++ " is not a function"
    | InOnPrimitive key target =>
        "Cannot use 'in' operator to search for '" ++ key ++ "' in "
        ++ operand_text target
    | NotConvertible => "Cannot convert object to primitive value"
    | DestructureNull => "Cannot destructure property 'id' of 'msg' as it is null."
    end;
  path_resolve := fun p => "/srv/" ++ p;
  path_sep := "/";
  path_join := fun a b => a ++ "/" ++ b;
  fs_existsSync := fun p => p =? "/srv/demo-root";
  fs_readdirSync := fun p =>
    if p =? "/srv/demo-root" then inr [ ("hello.txt", true); ("sub", false) ]
    else inl ("ENOENT: no such file or directory, scandir '" ++ p ++ "'");
  fs_readFileSync := fun p =>
    if p =? "/srv/demo-root/hello.txt" then inr ("Hello from MCP!" ++ LF)
    else inl ("ENOENT: no such file or directory, open '" ++ p ++ "'")
|}.

Definition boot : Server.world := {| Server.stdout := []; Server.timers := [] |}.

(** A request object [{ id, method, params }]. *)
Definition request (id : value) (method : string) (params : value) : value :=
  VObj [ ("jsonrpc", VStr "2.0"); ("id", id); ("method", VStr method);
         ("params", params) ].

(** A notification [{ method, params }]. *)
Definition notification (method : string) (params : value) : value :=
  VObj [ ("jsonrpc", VStr "2.0"); ("method", VStr method); ("params", params) ].

(** The levels of arrays and objects nested in a value. *)
Fixpoint nesting (v : value) : nat :=
  match v with
  | VArr elems => S (fold_right (fun x n => Nat.max (nesting x) n) O elems)
  | VObj props => S (fold_right (fun kx n => Nat.max (nesting (snd kx)) n) O props)
  | _ => O
  end.

(** An engine whose stack holds a thousand levels of nesting, with the
    diagnostic of V8. *)
Definition stack : Stack := {|
  JSON_stringify_overflows := fun v => (1000 <? nesting v)%nat;
  String_overflows := fun v => (1000 <? nesting v)%nat;
  RangeError_message := "Maximum call stack size exceeded"
|}.

(** The number 1 inside [n] arrays: [[[...1...]]]. *)
Fixpoint deep (n : nat) : value :=
  match n with
  | O => VNum 1
  | S k => VArr [ deep k ]
  end.

End Sample.

(* ================================================================== *)
(** ** Vocabulary of the statements *)

Section Vocabulary.
Context {host : Host}.
Import Server.

Definition jsonrpc_member : string * value := ("jsonrpc", VStr "2.0").

(** The object literal of [reply]. *)
Definition result_message (id result : value) : value :=
  VObj [ jsonrpc_member; ("id", id); ("result", result) ].

(** The object literal of [error]. *)
Definition error_message (id : value) (code : float) (message : string)
    (data : value) : value :=
  VObj [ jsonrpc_member; ("id", id);
         ("error", VObj [ ("code", VNum code); ("message", VStr message);
                          ("data", data) ]) ].

(** The object literal of the [catch] branch of the listener: the error
    -32603 with the [message] of what was caught. *)
Definition internal_error (id : value) (text : string) : value :=
  error_message id (-32603) "Internal error" (VObj [ ("message", VStr text) ]).

(** The chunk [send] writes for a message. *)
Definition chunk (message : value) : string :=
  serialize message ++ send_terminator.

(** The world after some chunks were written and some timers were set. *)
Definition after (w : world) (chunks : list string) (ts : list (callback * Z)) : world :=
  {| stdout := stdout w ++ chunks; timers := timers w ++ ts |}.

(** A response to the request [id]: a result or an error, with that [id]. *)
Inductive response_for (id : value) : value -> Prop :=
| response_result (result : value) :
    result <> VUndef -> response_for id (result_message id result)
| response_error (code : float) (message : string) (data : value) :
    response_for id (error_message id code message data).

(** The handler either throws before writing anything, or writes exactly one
    message, a response to [id]. *)
Definition answers (id : value) (c : M unit) : Prop :=
  forall w,
    (exists e, c w = (Throw e, w))
    \/ (exists m ts,
          response_for id m /\ (List.length ts <= 1)%nat
          /\ c w = (Ok tt, after w [chunk m] ts)).

(** [message.error.code] and [message.error.data] *)
Definition error_code (m : value) : value := get (get m "error") "code".
Definition error_data (m : value) : value := get (get m "error") "data".

(** The handler either throws before writing anything, or writes exactly one
    message, which satisfies [P], and sets no timer. *)
Definition writes_one (P : value -> Prop) (c : M unit) : Prop :=
  forall w,
    (exists e, c w = (Throw e, w))
    \/ (exists m, P m /\ c w = (Ok tt, after w [chunk m] [])).

(** The string holds the byte [n]. *)
Fixpoint has_byte (n : nat) (s : string) : bool :=
  match s with
  | EmptyString => false
  | String c r => (nat_of_ascii c =? n)%nat || has_byte n r
  end.

(** The text of a response: the [jsonrpc] member, the [id] member, and one
    more member. *)
Definition envelope (id_text member : string) : string :=
  "{" ++ quote "jsonrpc" ++ ":" ++ quote "2.0" ++ "," ++ quote "id" ++ ":"
  ++ id_text ++ "," ++ member ++ "}".

(** Lines of whitespace only, as [trim] understands whitespace. *)
Inductive whitespace_only : string -> Prop :=
| ws_empty : whitespace_only EmptyString
| ws_more (e : list nat) (s : string) :
    In e whitespace_encodings -> whitespace_only s ->
    whitespace_only (bytes e ++ s).

(** The text of the parse-error message. *)
Definition parse_error_text : string :=
  "{" ++ quote "jsonrpc" ++ ":" ++ quote "2.0" ++ "," ++ quote "error" ++ ":{"
  ++ quote "code" ++ ":-32700," ++ quote "message" ++ ":" ++ quote "Parse error"
  ++ "}}".

(** The request parameters of a call to the arithmetic tool. *)
Definition arithmetic_call (args : value) : value :=
  VObj [ ("name", VStr "calculator_arithmetic"); ("arguments", args) ].

(** The template of the registered prompt. *)
Definition hello_template : string :=
  "Olá, {{name}}! Bem-vindo ao Servidor MCP de demonstração.".

(** The message of a rendered prompt. *)
Definition prompt_message (id : value) (name rendered : string) : value :=
  result_message id
    (VObj [ ("prompt",
              VObj [ ("name", VStr name);
                     ("messages",
                       VArr [ VObj [ ("role", VStr "system");
                                     ("content", VStr rendered) ] ]) ]) ]).

End Vocabulary.

Section ValidatorVocabulary.
Import Validation.

(** The loop over [Object.entries(properties)], as a function of its own. *)
Fixpoint each_property (value : slot) (path : string) (ps : list (string * schema))
    (valid : bool) (errors : list error_record) : bool * list error_record :=
  match ps with
  | [] => (valid, errors)
  | (key, childSchema) :: rest =>
      if slot_in key value then
        let (ok, errors') :=
          validateAgainstSchema (slot_get value key) childSchema
            (child_path path key) errors in
        each_property value path rest (if negb ok then false else valid) errors'
      else each_property value path rest valid errors
  end.


(** In the words of the specification: the result of validating, on its
    own, each declared property present in the value, under the path
    extended by a slash and the escaped key. *)
Definition sub_results (value : slot) (path : string)
    (properties : list (string * schema)) : list (bool * list error_record) :=
  map (fun kv =>
         validateAgainstSchema (slot_get value (fst kv)) (snd kv)
           (path ++ "/" ++ escapeJsonPointer (fst kv)) [])
    (filter (fun kv => slot_in (fst kv) value) properties).

Definition is_nil {A} (l : list A) : bool :=
  match l with [] => true | _ :: _ => false end.

Section SchemaInduction.
Variable P : schema -> Prop.
Hypothesis P_absent : P SAbsent.
Hypothesis P_node :
  forall ty required properties enum,
    Forall (fun kv => P (snd kv)) properties ->
    P (SNode ty required properties enum).

Fixpoint schema_induction (s : schema) : P s :=
  match s with
  | SAbsent => P_absent
  | SNode ty required properties enum =>
      P_node ty required properties enum
        ((fix all (l : list (string * schema)) : Forall (fun kv => P (snd kv)) l :=
            match l with
            | [] => Forall_nil _
            | kv :: rest => Forall_cons kv (schema_induction (snd kv)) (all rest)
            end) properties)
  end.
End SchemaInduction.

End ValidatorVocabulary.

Section SampleVocabulary.
#[local] Existing Instance unbounded_stack.
Import Server Sample.

Definition sample_handleToolsCall := handleToolsCall (host := Sample.host).
Definition sample_handleResourcesRead := handleResourcesRead (host := Sample.host).
Definition sample_handlePromptsGet := handlePromptsGet (host := Sample.host).
Definition sample_on_message := on_message (host := Sample.host).
Definition sample_on_line := on_line (host := Sample.host).
Definition sample_chunk := chunk (host := Sample.host).

(** The text of an error message without [data], followed by what [send]
    appends. *)
Definition error_text (id_text code_text message : string) : string :=
  "{" ++ q "jsonrpc" ++ ":" ++ q "2.0" ++ "," ++ q "id" ++ ":" ++ id_text ++ ","
  ++ q "error" ++ ":{" ++ q "code" ++ ":" ++ code_text ++ "," ++ q "message"
  ++ ":" ++ q message ++ "}}" ++ Server.send_terminator.

End SampleVocabulary.

(** *** Vocabulary of the further properties *)

Section ServerVocabulary.
Context {host : Host}.
Import Server.

(** The labels of the [switch] of the listener. *)
Definition method_names : list string :=
  [ "initialize"; "tools/list"; "tools/call"; "resources/list";
    "resources/read"; "prompts/list"; "prompts/get" ].

(** Some [case] of the [switch] matches [method]. *)
Definition known_method (method : value) : bool :=
  existsb (is_str method) method_names.

(** The timer [handleInitialize] sets. *)
Definition list_changed_timer : callback * Z := (ListChangedNotifications, 5000%Z).

(** The descriptor [scanResources] pushes for the file [name] of [root]. *)
Definition resource_descriptor (root name : string) : value :=
  VObj [ ("uri", VStr ("file://" ++ path_join root name));
         ("mimeType", VStr "text/plain");
         ("name", VStr name);
         ("description", VStr "Arquivo de demonstração") ].

(** The names of the regular files among the entries of a directory. *)
Definition file_names (entries : list (string * bool)) : list string :=
  map fst (filter snd entries).

(** What an existing, listable root contributes to the scan. *)
Definition root_listing (root : string) : list value :=
  if fs_existsSync root
  then match fs_readdirSync root with
       | inr entries => map (resource_descriptor root) (file_names entries)
       | inl _ => []
       end
  else [].


(** The chunk is what [send] writes for some message. *)
Definition is_message_chunk (c : string) : Prop := exists m, c = chunk m.

(** The string holds no control character (no byte below 32), hence no
    line feed and no carriage return. *)
Fixpoint no_control (s : string) : bool :=
  match s with
  | EmptyString => true
  | String c r => (32 <=? nat_of_ascii c)%nat && no_control r
  end.

(** The message of an answered [resources/read]. *)
Definition contents_message (id : value) (uri data : string) : value :=
  result_message id
    (VObj [ ("contents",
              VArr [ VObj [ ("mimeType", VStr "text/plain");
                            ("uri", VStr uri);
                            ("text", VStr data) ] ]) ]).

(** What [resources/read] does once the path is accepted: the text of the
    file, or the error -32002 with the message of the failure. *)
Definition read_outcome (id : value) (uri path : string) (w : world) : result unit * world :=
  match fs_readFileSync path with
  | inr data => (Ok tt, after w [chunk (contents_message id uri data)] [])
  | inl message =>
      (Ok tt,
       after w
         [ chunk (error_message id (-32002) "Falha ao ler recurso"
                    (VObj [ ("message", VStr message) ])) ] [])
  end.

End ServerVocabulary.

Section StackVocabulary.
Context {stack : Stack}.
Import Server.

Definition is_timeout (e : event) : bool :=
  match e with
  | Timeout => true
  | Line _ => false
  end.

(** The lines among the events, and the timers coming due. *)
Definition count_lines (events : list event) : nat :=
  List.length (filter (fun e => negb (is_timeout e)) events).

Definition count_timeouts (events : list event) : nat :=
  List.length (filter is_timeout events).

(** How a listener or the loop can end: normally, with the TypeError of
    destructuring [null], or with the RangeError of a stack that ran out. *)
Definition ends_well (r : result unit) : Prop :=
  r = Ok tt
  \/ r = Throw (TypeError DestructureNull)
  \/ r = Throw (RangeError RangeError_message).

End StackVocabulary.

Section ValidatorFurtherVocabulary.
Import Validation.

(** A decoder of JSON-Pointer tokens, to reason about [escapeJsonPointer];
    the repository has none. *)
Fixpoint unescape_pointer (s : string) : string :=
  match s with
  | EmptyString => EmptyString
  | String c r =>
      if Ascii.eqb c "~" then
        match r with
        | String d r' =>
            if Ascii.eqb d "0" then String "~" (unescape_pointer r')
            else if Ascii.eqb d "1" then String "/" (unescape_pointer r')
            else String c (unescape_pointer r)
        | EmptyString => String c EmptyString
        end
      else String c (unescape_pointer r)
  end.

(** The keywords the validator reports. *)
Definition keywords : list string := [ "type"; "required"; "enum" ].

(** An error reported at [path] or below it, under one of the keywords. *)
Definition located_under (path : string) (e : error_record) : Prop :=
  String.prefix path (instancePath e) = true /\ In (keyword e) keywords.

End ValidatorFurtherVocabulary.

Section RegistryVocabulary.
Import Server Validation Registry.

(** The registry before [initializeValidators] is called: two empty maps. *)
Definition no_validators : registry :=
  {| toolValidators := []; promptValidators := [] |}.

(** The entry is compiled and filed under the name [n]: its [name] is the
    non-empty string [n] and its [inputSchema] is truthy. *)
Definition registers (n : string) (entry : value) : bool :=
  is_str (opt_get entry "name") n
  && truthy (opt_get entry "name")
  && truthy (opt_get entry "inputSchema").

(** The schema of the last entry filed under [n], if any. *)
Definition last_registered (n : string) (entries : list value) : option value :=
  match find (registers n) (rev entries) with
  | Some entry => Some (get entry "inputSchema")
  | None => None
  end.

(** The [inputSchema] of the arithmetic tool, as written in [tools]. *)
Definition tool_inputSchema : value :=
  match tools with
  | VArr (tool :: _) => get tool "inputSchema"
  | _ => VUndef
  end.

(** The same schema, as the validator reads it. *)
Definition arithmetic_schema : schema :=
  SNode (VStr "object") (Some [ "op"; "a"; "b" ])
    [ ("op", SNode (VStr "string") None []
               (Some [ VStr "add"; VStr "sub"; VStr "mul"; VStr "div" ]));
      ("a", SNode (VStr "number") None [] None);
      ("b", SNode (VStr "number") None [] None) ] None.

(** The schema of the prompt [hello-template], as the validator reads it. *)
Definition hello_schema : schema :=
  SNode (VStr "object") (Some [ "name" ])
    [ ("name", SNode (VStr "string") None [] None) ] None.

(** [a op b] for the four operations of the tool. *)
Definition apply_op (op : string) (a b : float) : float :=
  if op =? "add" then (a + b)%float
  else if op =? "sub" then (a - b)%float
  else if op =? "mul" then (a * b)%float
  else (a / b)%float.

(** What the validator of the arithmetic tool accepts: an object with an
    operation among the four and two numbers that are not NaN. *)
Definition arithmetic_ok (args : value) : bool :=
  match args with
  | VObj props =>
      match lookup "op" props, lookup "a" props, lookup "b" props with
      | Some (VStr op), Some (VNum a), Some (VNum b) =>
          mem op [ "add"; "sub"; "mul"; "div" ]
          && negb (PrimFloat.is_nan a) && negb (PrimFloat.is_nan b)
      | _, _, _ => false
      end
  | _ => false
  end.

(** The parameters of [prompts/get] for the registered prompt. *)
Definition hello_call (args : value) : value :=
  VObj [ ("name", VStr "hello-template"); ("arguments", args) ].

End RegistryVocabulary.

(** The sample host after the root was made unreadable: the directory
    exists, and listing it fails. *)
Definition locked_host : Host := {|
  JSON_parse := JSON_parse (Host := Sample.host);
  Number_toString := Number_toString (Host := Sample.host);
  TypeError_message := TypeError_message (Host := Sample.host);
  path_resolve := path_resolve (Host := Sample.host);
  path_sep := path_sep (Host := Sample.host);
  path_join := path_join (Host := Sample.host);
  fs_existsSync := fs_existsSync (Host := Sample.host);
  fs_readdirSync := fun p => inl ("EACCES: permission denied, scandir '" ++ p ++ "'");
  fs_readFileSync := fs_readFileSync (Host := Sample.host)
|}.

(* ================================================================== *)
(** ** Facts about the monad and the helpers *)

Section Basics.
Context {host : Host} {stack : Stack}.
Import Server.
Local Open Scope js_scope.

Lemma append_assoc (a b c : string) : (a ++ b) ++ c = a ++ (b ++ c).
Proof. induction a as [| x a IH]; simpl; [reflexivity | now rewrite IH]. Qed.

Lemma append_nil_r (a : string) : a ++ EmptyString = a.
Proof. induction a as [| x a IH]; simpl; [reflexivity | now rewrite IH]. Qed.

(** *** The fuel of the two scanning loops is enough *)

Lemma drop_prefix_length (p s r : string) :
  drop_prefix p s = Some r ->
  String.length s = (String.length p + String.length r)%nat.
Proof.
  revert s. induction p as [| a p IH]; intros s H; cbn in H.
  - now injection H as ->.
  - destruct s as [| b s]; [discriminate |].
    destruct (Ascii.eqb a b); [| discriminate].
    cbn. f_equal. now apply IH.
Qed.

Lemma take_word_length (s : string) :
  String.length s
  = (String.length (fst (take_word s)) + String.length (snd (take_word s)))%nat.
Proof.
  induction s as [| c s IH]; [reflexivity |].
  cbn [take_word]. destruct (is_word c); [| reflexivity].
  destruct (take_word s) as [word rest]. cbn in *. now rewrite IH.
Qed.

Lemma match_placeholder_shorter (s k rest : string) :
  match_placeholder s = Some (k, rest) ->
  (String.length rest < String.length s)%nat.
Proof.
  unfold match_placeholder.
  destruct (drop_prefix "{{" s) as [r |] eqn:Hopen; [| discriminate].
  pose proof (take_word_length r) as Hword.
  destruct (take_word r) as [key r']. cbn [fst snd] in Hword.
  destruct (key =? EmptyString); [discriminate |].
  destruct (drop_prefix "}}" r') as [rest' |] eqn:Hclose; [| discriminate].
  intros H. injection H as _ ->.
  apply drop_prefix_length in Hopen, Hclose. cbn in Hopen, Hclose. lia.
Qed.

Lemma replace_placeholders_fuel (f : string -> result string) :
  forall n m s,
    (String.length s < n)%nat -> (String.length s < m)%nat ->
    replace_placeholders n f s = replace_placeholders m f s.
Proof.
  induction n as [| n IH]; intros m s Hn Hm; [lia |].
  destruct m as [| m]; [lia |].
  cbn [replace_placeholders].
  destruct (match_placeholder s) as [[k rest] |] eqn:Hmatch.
  - apply match_placeholder_shorter in Hmatch.
    destruct (f k); [| reflexivity].
    now rewrite (IH m rest) by lia.
  - destruct s as [| c r]; [reflexivity |].
    cbn [String.length] in Hn, Hm. now rewrite (IH m r) by lia.
Qed.

(** More fuel than [render] takes changes nothing. *)
Lemma render_fuel (f : string -> result string) (s : string) (n : nat) :
  (String.length s < n)%nat -> replace_placeholders n f s = render s f.
Proof.
  intros Hn. unfold render. apply replace_placeholders_fuel; lia.
Qed.

Lemma bytes_length (e : list nat) : String.length (bytes e) = List.length e.
Proof.
  unfold bytes. induction e as [| x e IH]; [reflexivity |].
  cbn. now rewrite IH.
Qed.

Lemma strip_first_shorter (encs : list (list nat)) (s r : string) :
  Forall (fun e => e <> []) encs ->
  strip_first encs s = Some r -> (String.length r < String.length s)%nat.
Proof.
  induction 1 as [| e encs He _ IH]; cbn [strip_first]; [discriminate |].
  destruct (drop_prefix (bytes e) s) as [r' |] eqn:Hdrop; [| exact IH].
  intros H. injection H as ->.
  apply drop_prefix_length in Hdrop. rewrite bytes_length in Hdrop.
  destruct e; [now contradiction He | cbn in Hdrop; lia].
Qed.

(** More fuel than [trimStart] and [trimEnd] take changes nothing. *)
Lemma strip_all_fuel (encs : list (list nat)) :
  Forall (fun e => e <> []) encs ->
  forall n m s,
    (String.length s <= n)%nat -> (String.length s <= m)%nat ->
    strip_all n encs s = strip_all m encs s.
Proof.
  intros Hencs. induction n as [| n IH]; intros m s Hn Hm.
  - destruct s; [| cbn in Hn; lia]. destruct m; [reflexivity |].
    cbn [strip_all]. destruct (strip_first encs EmptyString) as [r |] eqn:Hs;
      [| reflexivity].
    apply (strip_first_shorter encs _ _ Hencs) in Hs. cbn in Hs. lia.
  - cbn [strip_all]. destruct (strip_first encs s) as [r |] eqn:Hs.
    + pose proof (strip_first_shorter encs _ _ Hencs Hs) as Hlen.
      destruct m as [| m]; [lia |].
      cbn [strip_all]. rewrite Hs. apply IH; lia.
    + destruct m; [reflexivity |]. cbn [strip_all]. now rewrite Hs.
Qed.

(** *** The helpers of JSON-RPC *)

(** On any engine [send] writes the one chunk, or throws the RangeError
    having written nothing. *)
Lemma send_cases (m : value) (w : world) :
  send m w
  = if JSON_stringify_overflows m
    then (Throw (RangeError RangeError_message), w)
    else (Ok tt, after w [chunk m] []).
Proof.
  unfold send. destruct (JSON_stringify_overflows m); [reflexivity |].
  unfold write, after, chunk. now rewrite app_nil_r.
Qed.

(** On an engine whose stack does not run out, [send] always writes. *)
Lemma send_spec (m : value) (w : world) :
  send (stack := unbounded_stack) m w = (Ok tt, after w [chunk m] []).
Proof.
  unfold send. change (JSON_stringify_overflows (Stack := unbounded_stack) m) with false.
  unfold write, after, chunk. now rewrite app_nil_r.
Qed.

Lemma reply_spec (id r : value) (w : world) :
  reply (stack := unbounded_stack) id r w
  = (Ok tt, after w [chunk (result_message id r)] []).
Proof. apply send_spec. Qed.

Lemma error_spec (id : value) (code : float) (msg : string) (data : value) (w : world) :
  error (stack := unbounded_stack) id code msg data w
  = (Ok tt, after w [chunk (error_message id code msg data)] []).
Proof. apply send_spec. Qed.

Lemma answers_reply (id r : value) : r <> VUndef -> answers id (reply id r).
Proof.
  intros Hr w. unfold reply. rewrite send_cases.
  destruct (JSON_stringify_overflows _); [left; now eexists |].
  right. exists (result_message id r), [].
  split; [now constructor | split; [cbn; lia | reflexivity]].
Qed.

Lemma answers_error (id : value) (code : float) (msg : string) (data : value) :
  answers id (error id code msg data).
Proof.
  intros w. unfold error. rewrite send_cases.
  destruct (JSON_stringify_overflows _); [left; now eexists |].
  right. exists (error_message id code msg data), [].
  split; [constructor | split; [cbn; lia | reflexivity]].
Qed.

Lemma answers_throw (id : value) (e : exn) : answers id (throw e).
Proof. intros w. left. now exists e. Qed.

Lemma answers_lift {A} (id : value) (r : result A) (k : A -> M unit) :
  (forall a, r = Ok a -> answers id (k a)) ->
  answers id (bind (lift r) k).
Proof.
  intros Hk w. unfold bind, lift. destruct r as [a | e].
  - now apply Hk.
  - left. now exists e.
Qed.

Lemma answers_try_catch (id : value) (body : M unit) (handler : exn -> M unit) :
  answers id body -> (forall e, answers id (handler e)) ->
  answers id (try_catch body handler).
Proof.
  intros Hb Hh w. unfold try_catch.
  destruct (Hb w) as [[e He] | (m & ts & Hm & Hts & He)]; rewrite He.
  - apply Hh.
  - right. now exists m, ts.
Qed.

Lemma obj_defined (props : list (string * value)) : obj props <> VUndef.
Proof. discriminate. Qed.

Lemma stringify_defined (v : value) : v <> VUndef -> exists s, stringify v = Some s.
Proof.
  destruct v; intros H; try (now eexists; simpl; reflexivity).
  now contradiction H.
Qed.

Lemma tool_result_defined (v : float) : tool_result v <> VUndef.
Proof. discriminate. Qed.

Create HintDb answers.
#[local] Hint Resolve answers_reply answers_error answers_throw obj_defined
  tool_result_defined : answers.

Ltac branch :=
  match goal with
  | |- answers _ (if ?c then _ else _) => destruct c
  | |- answers _ (match ?x with _ => _ end) => destruct x
  end; cbv beta iota.

Lemma handleInitialize_answers (id params : value) :
  answers id (handleInitialize id params).
Proof.
  intros w. unfold handleInitialize. cbv zeta. unfold bind, reply.
  rewrite send_cases.
  destruct (JSON_stringify_overflows _); [left; now eexists |].
  right. eexists (result_message id _), [(ListChangedNotifications, 5000%Z)].
  split; [constructor; apply obj_defined | split; [cbn; lia |]].
  unfold setTimeout, after. cbn [stdout timers]. now rewrite app_nil_r.
Qed.

Lemma handleToolsList_answers (id : value) : answers id (handleToolsList id).
Proof. unfold handleToolsList. auto with answers. Qed.

Lemma handleToolsCall_answers (id params : value) :
  answers id (handleToolsCall id params).
Proof.
  unfold handleToolsCall.
  branch.
  - repeat branch; auto with answers.
  - apply answers_lift. auto with answers.
Qed.

Lemma handleResourcesList_answers (id : value) :
  answers id (handleResourcesList id).
Proof. unfold handleResourcesList. apply answers_lift. auto with answers. Qed.

Lemma handleResourcesRead_answers (id params : value) :
  answers id (handleResourcesRead id params).
Proof.
  unfold handleResourcesRead.
  cbv zeta. repeat branch; auto with answers.
  apply answers_try_catch; auto with answers.
  branch; auto with answers.
Qed.

Lemma handlePromptsList_answers (id : value) : answers id (handlePromptsList id).
Proof. unfold handlePromptsList. auto with answers. Qed.

Lemma handlePromptsGet_answers (id params : value) :
  answers id (handlePromptsGet id params).
Proof.
  unfold handlePromptsGet.
  cbv zeta. branch.
  - apply answers_lift. intros [|] _; auto with answers.
    apply answers_lift. auto with answers.
  - apply answers_lift. auto with answers.
Qed.

(** With an [id], every branch of the [switch] answers. *)
Lemma dispatch_answers (id method params : value) :
  id <> VUndef -> answers id (dispatch id method params).
Proof.
  intros Hid. unfold dispatch.
  repeat match goal with
         | |- answers _ (if is_str ?m ?s then _ else _) => destruct (is_str m s)
         end;
    auto using handleInitialize_answers, handleToolsList_answers,
      handleToolsCall_answers, handleResourcesList_answers,
      handleResourcesRead_answers, handlePromptsList_answers,
      handlePromptsGet_answers.
  destruct id; try contradiction; simpl; apply answers_lift; auto with answers.
Qed.

(** The listener, once the line is parsed: the request is answered once
    and no exception leaves the listener, unless the stack runs out while
    the internal error is serialised; then nothing is written and the
    RangeError leaves the listener. *)
Lemma on_message_responds (msg : value) (w : world) :
  get msg "id" <> VUndef ->
  (exists m ts,
      response_for (get msg "id") m /\ (List.length ts <= 1)%nat
      /\ on_message msg w = (Ok tt, after w [chunk m] ts))
  \/ (exists text,
        JSON_stringify_overflows (internal_error (get msg "id") text) = true
        /\ on_message msg w = (Throw (RangeError RangeError_message), w)).
Proof.
  intros Hid. unfold on_message.
  assert (Hn : nullish msg = false) by (destruct msg; trivial; now contradiction Hid).
  rewrite Hn.
  assert (Hu : is_undefined (get msg "id") = false)
    by (destruct (get msg "id"); trivial; now contradiction Hid).
  rewrite Hu. simpl negb. cbv iota.
  unfold try_catch.
  destruct (dispatch_answers (get msg "id") (get msg "method") (get msg "params") Hid w)
    as [[e He] | (m & ts & Hm & Hts & He)]; rewrite He.
  - unfold error. rewrite send_cases.
    change (obj [ ("jsonrpc", str "2.0"); ("id", get msg "id");
                  ("error", obj [ ("code", VNum (-32603)%float);
                                  ("message", str "Internal error");
                                  ("data", obj [ ("message", str (exn_message e)) ]) ]) ])
      with (internal_error (get msg "id") (exn_message e)).
    destruct (JSON_stringify_overflows _) eqn:Hover.
    + right. now exists (exn_message e).
    + left. exists (internal_error (get msg "id") (exn_message e)), [].
      split; [constructor | split; [cbn; lia | reflexivity]].
  - left. now exists m, ts.
Qed.

End Basics.

(* ================================================================== *)
(** ** The dispatcher *)

(** From here to the part on an engine whose stack can run out, the
    statements are about the server while the stack suffices. *)

Section Dispatcher.
#[local] Existing Instance unbounded_stack.
Context {host : Host}.
Import Server.
Local Open Scope js_scope.

Lemma serialize_envelope (id v : value) (key id_text body : string) :
  stringify id = Some id_text -> stringify v = Some body ->
  serialize (VObj [ jsonrpc_member; ("id", id); (key, v) ])
  = envelope id_text (quote key ++ ":" ++ body).
Proof.
  intros Hid Hv. unfold serialize, jsonrpc_member, envelope.
  cbn [stringify]. rewrite Hid, Hv. cbn [String.concat].
  now rewrite !append_assoc.
Qed.

Lemma response_text (id m : value) (id_text : string) :
  response_for id m -> stringify id = Some id_text ->
  exists body,
    serialize m = envelope id_text (quote "result" ++ ":" ++ body)
    \/ serialize m = envelope id_text (quote "error" ++ ":" ++ body).
Proof.
  intros [r Hr | code msg data] Hid.
  - destruct (stringify_defined r Hr) as [body Hbody]. exists body. left.
    now apply serialize_envelope.
  - destruct (stringify_defined
                (VObj [ ("code", VNum code); ("message", VStr msg); ("data", data) ]))
      as [body Hbody]; [discriminate |].
    exists body. right. now apply serialize_envelope.
Qed.

Lemma strip_first_whitespace (e : list nat) (s : string) :
  In e whitespace_encodings ->
  strip_first whitespace_encodings (bytes e ++ s) = Some s
  /\ (String.length s < String.length (bytes e ++ s))%nat.
Proof.
  unfold whitespace_encodings. intros H.
  repeat (destruct H as [<- | H]; [split; [reflexivity | simpl; lia] |]).
  destruct H.
Qed.

Lemma strip_all_whitespace (s : string) :
  whitespace_only s ->
  forall fuel, (String.length s <= fuel)%nat ->
  strip_all fuel whitespace_encodings s = EmptyString.
Proof.
  induction 1 as [| e s He Hs IH]; intros fuel Hfuel.
  - destruct fuel; reflexivity.
  - destruct (strip_first_whitespace e s He) as [Hstrip Hlen].
    destruct fuel as [| fuel]; [lia |].
    cbn [strip_all]. rewrite Hstrip. apply IH. lia.
Qed.

Lemma trim_whitespace_only (s : string) : whitespace_only s -> trim s = EmptyString.
Proof.
  intros Hs. unfold trim, trimStart.
  rewrite (strip_all_whitespace s Hs) by lia. reflexivity.
Qed.

Lemma serialize_parse_error : serialize parse_error = parse_error_text.
Proof. vm_compute. reflexivity. Qed.


(** An unknown method: error -32601 with an [id], silence without. *)
Lemma unknown_method (id params : value) (method : string) (w : world) :
  existsb (String.eqb method)
    [ "initialize"; "tools/list"; "tools/call"; "resources/list";
      "resources/read"; "prompts/list"; "prompts/get" ] = false ->
  dispatch id (VStr method) params w
  = if is_undefined id then (Ok tt, w)
    else (Ok tt,
          after w [ chunk (error_message id (-32601)
                             ("Method not found: " ++ method) VUndef) ] []).
Proof.
  cbn [existsb]. intros H.
  repeat (apply orb_false_elim in H; destruct H as [?H H]).
  unfold dispatch. cbn [is_str].
  repeat match goal with
         | E : (method =? ?s) = false |- _ => rewrite E; clear E
         end.
  destruct (is_undefined id); [reflexivity |].
  cbn [negb]. unfold bind, lift. cbn [to_string]. apply error_spec.
Qed.

(** C10. A line that is not blank and that JSON.parse rejects makes the
    listener write exactly one message, the parse error with code -32700,
    whose object has no [id] property and whose text has no [id] member; the
    listener returns normally, so the loop goes on with the lines that
    follow. A line of whitespace only writes nothing. *)
Theorem parse_failure_reported (line : string) (rest : list string) (w : world) :
  (trim line <> EmptyString -> JSON_parse line = None ->
     on_line line w = (Ok tt, after w [parse_error_text ++ send_terminator] [])
     /\ run (line :: rest) w
        = run rest (after w [parse_error_text ++ send_terminator] [])
     /\ get (get parse_error "error") "code" = VNum (-32700)
     /\ get parse_error "id" = VUndef)
  /\ (whitespace_only line ->
        on_line line w = (Ok tt, w) /\ run (line :: rest) w = run rest w).
Proof.
  split.
  - intros Hline Hparse.
    assert (Hrun : on_line line w
                   = (Ok tt, after w [parse_error_text ++ send_terminator] [])).
    { unfold on_line. apply String.eqb_neq in Hline. rewrite Hline, Hparse.
      rewrite send_spec. unfold chunk. now rewrite serialize_parse_error. }
    repeat split; trivial.
    cbn [run]. unfold bind. now rewrite Hrun.
  - intros Hws.
    assert (Hrun : on_line line w = (Ok tt, w)).
    { unfold on_line. now rewrite (trim_whitespace_only line Hws). }
    split; trivial. cbn [run]. unfold bind. now rewrite Hrun.
Qed.

(** C2, on the code: [send] writes the JSON text followed by the two
    bytes 92 and 110, a backslash and the letter n, and not by a line feed
    (byte 10). The chunk holds no line feed at all, so two messages written
    in a row share one output line. *)
Theorem send_writes_no_line_feed (w : world) :
  let written := parse_error_text ++ bytes [92; 110]%nat in
  send parse_error w = (Ok tt, after w [written] [])
  /\ has_byte 10 written = false
  /\ bind (send parse_error) (fun _ => send parse_error) w
     = (Ok tt, after w [written; written] []).
Proof.
  intros written.
  assert (H : forall w', send parse_error w' = (Ok tt, after w' [written] [])).
  { intros w'. rewrite send_spec. unfold chunk. now rewrite serialize_parse_error. }
  split; [| split].
  - apply H.
  - vm_compute. reflexivity.
  - unfold bind. rewrite H, H. unfold after. cbn [stdout timers].
    now rewrite <- !app_assoc.
Qed.

(** C3, on the code: the handlers write their error also when the request
    is a notification, that is when [id] is [undefined]; the message is then
    printed without an [id] member. So do an unknown tool name, invalid
    parameters of [tools/call], a missing [uri] of [resources/read] and
    missing arguments of [prompts/get]. *)
Theorem notification_gets_error_output (w : world) :
  let note method params :=
    VObj [ ("jsonrpc", VStr "2.0"); ("method", VStr method); ("params", params) ] in
  let writes msg err := on_message msg w = (Ok tt, after w [chunk err] []) in
  (forall method params, get (note method params) "id" = VUndef)
  /\ writes (note "tools/call" (VObj [ ("name", VStr "nope") ]))
        (error_message VUndef (-32601) "Tool não encontrada: nope" VUndef)
  /\ writes (note "tools/call" (VObj [ ("name", VStr "calculator_arithmetic") ]))
        (error_message VUndef (-32602) "Parâmetros inválidos"
           (VObj [ ("expected", VStr "numbers a,b") ]))
  /\ writes (note "resources/read" (VObj []))
        (error_message VUndef (-32602) "URI inválida. Use file://" VUndef)
  /\ writes (note "prompts/get" (VObj [ ("name", VStr "hello-template") ]))
        (error_message VUndef (-32602) "Argumentos ausentes para o prompt"
           (VObj [ ("required", VArr [ VStr "name" ]) ]))
  /\ chunk (error_message VUndef (-32601) "Tool não encontrada: nope" VUndef)
     = "{" ++ quote "jsonrpc" ++ ":" ++ quote "2.0" ++ "," ++ quote "error"
       ++ ":{" ++ quote "code" ++ ":-32601," ++ quote "message" ++ ":"
       ++ quote "Tool não encontrada: nope" ++ "}}" ++ send_terminator.
Proof.
  intros note writes.
  assert (Hrun : forall msg id code text data,
             on_message msg w = error id code text data w ->
             on_message msg w
             = (Ok tt, after w [chunk (error_message id code text data)] [])).
  { intros msg id code text data ->. apply error_spec. }
  split; [reflexivity |].
  repeat (split; [apply Hrun; vm_compute; reflexivity |]).
  vm_compute. reflexivity.
Qed.

End Dispatcher.

(* ================================================================== *)
(** ** The handlers *)

(** Two float constants differ when [PrimFloat.eqb] tells them apart. *)
Ltac distinct_codes :=
  let E := fresh "E" in
  intros E;
  match type of E with
  | ?x = ?y => apply (f_equal (fun c => PrimFloat.eqb c y)) in E
  end;
  vm_compute in E; discriminate E.

Section Handlers.
#[local] Existing Instance unbounded_stack.
Context {host : Host}.
Import Server.
Local Open Scope js_scope.

Lemma prefix_iff (a s : string) :
  String.prefix a s = true <-> exists rest, s = a ++ rest.
Proof.
  revert s. induction a as [| x a IH]; intros [| y s]; simpl.
  - split; [intros _; now exists EmptyString | auto].
  - split; [intros _; now exists (String y s) | auto].
  - split; [discriminate | intros [rest H]; discriminate].
  - destruct (ascii_dec x y) as [-> | Hxy].
    + rewrite IH. split; intros [rest H]; exists rest.
      * now rewrite H.
      * now injection H.
    + split; [discriminate |]. intros [rest H]. injection H as H1 _.
      now contradiction Hxy.
Qed.

Lemma some_root_contains_iff (roots : list string) (sep p : string) :
  some_root_contains roots sep p = true
  <-> exists root rest, In root roots /\ p = root ++ sep ++ rest.
Proof.
  unfold some_root_contains, startsWith. rewrite existsb_exists. split.
  - intros (root & Hin & Hpre). apply prefix_iff in Hpre as [rest ->].
    exists root, rest. split; [trivial | apply append_assoc].
  - intros (root & rest & Hin & ->). exists root. split; [trivial |].
    apply prefix_iff. exists rest. symmetry. apply append_assoc.
Qed.

Lemma get_number_not_nullish (args : value) (k : string) (n : float) :
  get args k = VNum n -> coalesce args (obj []) = args.
Proof. destruct args; try discriminate; reflexivity. Qed.

(** C4. A call of the arithmetic tool with numbers [a] and [b]: [add], [sub]
    and [mul] reply with the IEEE 754 binary64 sum, difference and product;
    [div] with [b] equal to zero ([b === 0], so for 0 and for -0) answers
    with the error -32000, which is not -32602, carries no [data] and is an
    error message, not a result; [div] with any other [b] replies with the
    binary64 quotient [a / b]. The reply holds the value in [meta.value] and
    its string form as the text. *)
Theorem arithmetic_tool (id args : value) (op : string) (a b : float) (w : world)
    (Hop : get args "op" = VStr op)
    (Ha : get args "a" = VNum a)
    (Hb : get args "b" = VNum b) :
  let outcome := handleToolsCall id (arithmetic_call args) w in
  let replies v :=
    outcome = (Ok tt, after w [chunk (result_message id (tool_result v))] [])
    /\ get (get (tool_result v) "meta") "value" = VNum v
    /\ get (tool_result v) "content"
       = VArr [ VObj [ ("type", VStr "text"); ("text", VStr (number_to_string v)) ] ] in
  (op = "add" -> replies (a + b)%float
                 /\ Prim2SF (a + b) = SF64add (Prim2SF a) (Prim2SF b))
  /\ (op = "sub" -> replies (a - b)%float
                    /\ Prim2SF (a - b) = SF64sub (Prim2SF a) (Prim2SF b))
  /\ (op = "mul" -> replies (a * b)%float
                    /\ Prim2SF (a * b) = SF64mul (Prim2SF a) (Prim2SF b))
  /\ (op = "div" -> (b =? 0)%float = false ->
        replies (a / b)%float
        /\ Prim2SF (a / b) = SF64div (Prim2SF a) (Prim2SF b))
  /\ (op = "div" -> (b =? 0)%float = true ->
        let err := error_message id (-32000) "Divisão por zero" VUndef in
        outcome = (Ok tt, after w [chunk err] [])
        /\ get err "result" = VUndef
        /\ get (get err "error") "code" = VNum (-32000)
        /\ get (get err "error") "data" = VUndef
        /\ (-32000)%float <> (-32602)%float).
Proof.
  intros outcome replies.
  assert (Hrun : outcome
            = (if op =? "add" then reply id (tool_result (a + b)%float)
               else if op =? "sub" then reply id (tool_result (a - b)%float)
               else if op =? "mul" then reply id (tool_result (a * b)%float)
               else if op =? "div" then
                 if (b =? 0)%float
                 then error id (-32000)%float "Divisão por zero" VUndef
                 else reply id (tool_result (a / b)%float)
               else error id (-32602)%float "Operação inválida"
                      (obj [ ("allowed",
                               VArr [str "add"; str "sub"; str "mul"; str "div"]) ]))
              w).
  { subst outcome. unfold handleToolsCall, arithmetic_call.
    cbn [coalesce nullish get lookup String.eqb Ascii.eqb Bool.eqb is_str].
    rewrite (get_number_not_nullish args "a" a Ha), Hop, Ha, Hb.
    reflexivity. }
  assert (Hreply : forall v,
             outcome = reply id (tool_result v) w -> replies v).
  { intros v ->. subst replies. cbv beta.
    split; [apply reply_spec | split; reflexivity]. }
  repeat match goal with |- _ /\ _ => split end.
  - intros ->. split; [now apply Hreply | apply add_spec].
  - intros ->. split; [now apply Hreply | apply sub_spec].
  - intros ->. split; [now apply Hreply | apply mul_spec].
  - intros -> Hz. split; [apply Hreply; now rewrite Hrun, Hz | apply div_spec].
  - intros -> Hz err. rewrite Hrun, Hz. cbn [String.eqb Ascii.eqb Bool.eqb].
    split; [apply error_spec |].
    repeat (split; [reflexivity |]). distinct_codes.
Qed.

Lemma file_uri_truthy (p : string) : truthy (VStr ("file://" ++ p)) = true.
Proof. reflexivity. Qed.

Lemma file_uri_startsWith (p : string) : startsWith ("file://" ++ p) "file://" = true.
Proof.
  unfold startsWith. apply prefix_iff. now exists p.
Qed.

Lemma file_uri_path (p : string) : replace ("file://" ++ p) "file://" EmptyString = p.
Proof. destruct p; reflexivity. Qed.

(** C5. The containment test of [resources/read] holds exactly when the
    path is some root, then the separator, then anything: with root [/a/b]
    and separator [/], [/a/b/c] is inside and [/a/bx] is not. A [file://]
    URI whose path fails the test is answered with the error -32001, which
    is neither -32602 nor -32002. *)
Theorem containment_check (id params : value) (p : string) (w : world)
    (Huri : opt_get params "uri" = VStr ("file://" ++ p)) :
  (forall roots sep q,
      some_root_contains roots sep q = true
      <-> exists root rest, In root roots /\ q = root ++ sep ++ rest)
  /\ some_root_contains [ "/a/b" ] "/" "/a/b/c" = true
  /\ some_root_contains [ "/a/b" ] "/" "/a/bx" = false
  /\ (some_root_contains ROOTS path_sep p = false ->
        handleResourcesRead id params w
        = (Ok tt,
           after w
             [ chunk (error_message id (-32001)
                        "Fora das raízes permitidas (roots)." VUndef) ] []))
  /\ (some_root_contains ROOTS path_sep p = true ->
        forall data, fs_readFileSync p = inr data ->
        handleResourcesRead id params w
        = (Ok tt,
           after w
             [ chunk (result_message id
                        (VObj [ ("contents",
                                  VArr [ VObj [ ("mimeType", VStr "text/plain");
                                                ("uri", VStr ("file://" ++ p));
                                                ("text", VStr data) ] ]) ])) ] []))
  /\ (-32001)%float <> (-32602)%float
  /\ (-32001)%float <> (-32002)%float.
Proof.
  split; [apply some_root_contains_iff |].
  split; [reflexivity |]. split; [reflexivity |].
  assert (Hrun : handleResourcesRead id params w
            = (if negb (some_root_contains ROOTS path_sep p)
               then error id (-32001)%float "Fora das raízes permitidas (roots)." VUndef
               else
                 try_catch
                   (match fs_readFileSync p with
                    | inl message => throw (FsError message)
                    | inr data =>
                        reply id
                          (obj [ ("contents",
                                   VArr [ obj [ ("mimeType", str "text/plain");
                                                ("uri", VStr ("file://" ++ p));
                                                ("text", str data) ] ]) ])
                    end)
                   (fun e =>
                      error id (-32002)%float "Falha ao ler recurso"
                        (obj [ ("message", str (exn_message e)) ]))) w).
  { unfold handleResourcesRead. rewrite Huri. cbv zeta.
    now rewrite file_uri_truthy, file_uri_startsWith, file_uri_path. }
  split; [| split; [| split; distinct_codes]].
  - intros Hout. rewrite Hrun, Hout. apply error_spec.
  - intros Hin data Hdata. rewrite Hrun, Hin. unfold try_catch. cbn [negb].
    rewrite Hdata. now rewrite reply_spec.
Qed.

Lemma writes_reply (P : value -> Prop) (id r : value) :
  P (result_message id r) -> writes_one P (reply id r).
Proof. intros HP w. right. eexists. split; [exact HP | apply reply_spec]. Qed.

Lemma writes_error (P : value -> Prop) (id : value) (code : float)
    (msg : string) (data : value) :
  P (error_message id code msg data) -> writes_one P (error id code msg data).
Proof. intros HP w. right. eexists. split; [exact HP | apply error_spec]. Qed.

Lemma writes_throw (P : value -> Prop) (e : exn) : writes_one P (throw e).
Proof. intros w. left. now exists e. Qed.

Lemma writes_lift {A} (P : value -> Prop) (r : result A) (k : A -> M unit) :
  (forall a, r = Ok a -> writes_one P (k a)) -> writes_one P (bind (lift r) k).
Proof.
  intros Hk w. unfold bind, lift. destruct r as [a | e].
  - now apply Hk.
  - left. now exists e.
Qed.

Lemma writes_try_catch (P : value -> Prop) (body : M unit) (handler : exn -> M unit) :
  writes_one P body -> (forall e, writes_one P (handler e)) ->
  writes_one P (try_catch body handler).
Proof.
  intros Hb Hh w. unfold try_catch.
  destruct (Hb w) as [[e He] | (m & Hm & He)]; rewrite He.
  - apply Hh.
  - right. now exists m.
Qed.

(** Settles a property of the form "if the code is -32602 then ..." on a
    concrete message. *)
Ltac settle_code :=
  let H := fresh "H" in
  intros H; unfold error_code, error_data in *; vm_compute in H;
  lazymatch type of H with
  | VUndef = _ => discriminate H
  | VNum ?c = VNum ?c => vm_compute; auto
  | VNum _ = VNum ?c =>
      apply (f_equal (fun v => match v with
                               | VNum x => PrimFloat.eqb x c
                               | _ => false
                               end)) in H;
      vm_compute in H; discriminate H
  end.

Ltac writes_step :=
  lazymatch goal with
  | |- writes_one _ (throw _) => apply writes_throw
  | |- writes_one _ (reply _ _) => apply writes_reply; settle_code
  | |- writes_one _ (error _ _ _ _) => apply writes_error; settle_code
  | |- writes_one _ (bind (lift _) _) => apply writes_lift; intros
  | |- writes_one _ (try_catch _ _) => apply writes_try_catch; intros
  | |- writes_one _ (if ?c then _ else _) => destruct c; cbv beta iota
  | |- writes_one _ (match ?x with _ => _ end) => destruct x; cbv beta iota
  end.

(** The [data] of the errors -32602, handler by handler: [tools/call]
    passes the expected types ([expected]) or the allowed operations
    ([allowed]), [prompts/get] the list of required arguments ([required]),
    and [resources/read] passes nothing. *)
Lemma invalid_params_data (id params : value) :
  writes_one
    (fun m => error_code m = VNum (-32602) ->
              error_data m = VObj [ ("expected", VStr "numbers a,b") ]
              \/ error_data m
                 = VObj [ ("allowed",
                           VArr [VStr "add"; VStr "sub"; VStr "mul"; VStr "div"]) ])
    (handleToolsCall id params)
  /\ writes_one
       (fun m => error_code m = VNum (-32602) ->
                 error_data m = VObj [ ("required", VArr [ VStr "name" ]) ])
       (handlePromptsGet id params)
  /\ writes_one
       (fun m => error_code m = VNum (-32602) -> error_data m = VUndef)
       (handleResourcesRead id params).
Proof.
  split; [| split].
  - unfold handleToolsCall. repeat writes_step.
  - unfold handlePromptsGet, prompts. cbv zeta. simpl find.
    destruct (is_str (opt_get params "name") "hello-template"); cbv beta iota;
      repeat writes_step.
  - unfold handleResourcesRead. cbv zeta. repeat writes_step.
Qed.

(** C8, on the code: of the four places that send the error -32602, three
    pass a [data] object that names what was expected; [resources/read]
    passes none. For a [uri] that is absent, falsy or not a [file://] string
    the error is written with [data] undefined, so its text has no [data]
    member; what was expected is told by the message only. The errors
    -32602 of [tools/call] and [prompts/get] all carry their [data]. *)
Theorem invalid_uri_error_lacks_data (id params : value) (w : world) :
  let uri := opt_get params "uri" in
  let err := error_message id (-32602) "URI inválida. Use file://" VUndef in
  ((truthy uri = false \/ exists u, uri = VStr u /\ startsWith u "file://" = false) ->
     handleResourcesRead id params w = (Ok tt, after w [chunk err] []))
  /\ error_code err = VNum (-32602)
  /\ error_data err = VUndef
  /\ (forall id_text,
        stringify id = Some id_text ->
        serialize err
        = envelope id_text
            (quote "error" ++ ":" ++ "{" ++ quote "code" ++ ":-32602,"
             ++ quote "message" ++ ":" ++ quote "URI inválida. Use file://" ++ "}"))
  /\ writes_one
       (fun m => error_code m = VNum (-32602) ->
                 error_data m = VObj [ ("expected", VStr "numbers a,b") ]
                 \/ error_data m
                    = VObj [ ("allowed",
                              VArr [VStr "add"; VStr "sub"; VStr "mul"; VStr "div"]) ])
       (handleToolsCall id params)
  /\ writes_one
       (fun m => error_code m = VNum (-32602) ->
                 error_data m = VObj [ ("required", VArr [ VStr "name" ]) ])
       (handlePromptsGet id params).
Proof.
  intros uri err.
  destruct (invalid_params_data id params) as (Htools & Hprompts & _).
  split; [| split; [reflexivity | split; [reflexivity | split; [| now split]]]].
  - intros Huri. unfold handleResourcesRead. cbv zeta. fold uri.
    destruct Huri as [Hfalsy | (u & Hu & Hscheme)].
    + rewrite Hfalsy. cbn [negb]. apply error_spec.
    + rewrite Hu. destruct (truthy (VStr u)); cbn [negb]; [| apply error_spec].
      rewrite Hscheme. cbn [negb]. apply error_spec.
  - intros id_text Hid. subst err. unfold error_message.
    apply serialize_envelope; [exact Hid | vm_compute; reflexivity].
Qed.

Lemma render_hello (f : string -> result string) (text : string) :
  f "name" = Ok text ->
  render hello_template f
  = Ok ("Olá, " ++ text ++ "! Bem-vindo ao Servidor MCP de demonstração.").
Proof.
  intros Hf. unfold render. vm_compute. rewrite Hf. reflexivity.
Qed.

Lemma render_hello_throws (f : string -> result string) (e : exn) :
  f "name" = Throw e -> render hello_template f = Throw e.
Proof.
  intros Hf. unfold render. vm_compute. rewrite Hf. reflexivity.
Qed.

(** The template without placeholder is left as it is. *)
Lemma render_literal (f : string -> result string) :
  render "Olá, " f = Ok "Olá, "
  /\ render "! Bem-vindo ao Servidor MCP de demonstração." f
     = Ok "! Bem-vindo ao Servidor MCP de demonstração.".
Proof. split; vm_compute; reflexivity. Qed.

(** C9, amended. [prompts/get] on the registered prompt [hello-template],
    when [arguments] is absent, [null], an object or an array: if the
    required key [name] is absent ([name in arguments] is false) the answer
    is the error -32602 whose [data] lists the required keys; if it is
    present and the conversion [String(arguments.name ?? "")] succeeds with
    [text], the answer is a single system-role message whose content is the
    template with [{{name}}] replaced by [text] in one pass, the rest of
    the template holding no placeholder; a [null] argument renders as the
    empty string. *)
Theorem prompts_get_contract (id params vars : value) (w : world)
    (Hname : opt_get params "name" = VStr "hello-template")
    (Hvars : coalesce (opt_get params "arguments") (obj []) = vars)
    (Hobj : is_object vars = true) :
  let outcome := handlePromptsGet id params w in
  (has_property "name" vars = Some false ->
     outcome
     = (Ok tt,
        after w
          [ chunk (error_message id (-32602) "Argumentos ausentes para o prompt"
                     (VObj [ ("required", VArr [ VStr "name" ]) ])) ] []))
  /\ (has_property "name" vars = Some true ->
      forall text,
        to_string (coalesce (get vars "name") (VStr EmptyString)) = Ok text ->
        outcome
        = (Ok tt,
           after w
             [ chunk (prompt_message id "hello-template"
                        ("Olá, " ++ text
                         ++ "! Bem-vindo ao Servidor MCP de demonstração.")) ] []))
  /\ map prompt_template prompts
     = [ "Olá, " ++ "{{name}}" ++ "! Bem-vindo ao Servidor MCP de demonstração." ]
  /\ (forall f,
        render "Olá, " f = Ok "Olá, "
        /\ render "! Bem-vindo ao Servidor MCP de demonstração." f
           = Ok "! Bem-vindo ao Servidor MCP de demonstração.")
  /\ to_string (coalesce VNull (VStr EmptyString)) = Ok EmptyString
  /\ to_string (coalesce VUndef (VStr EmptyString)) = Ok EmptyString.
Proof.
  intros outcome.
  assert (Hrun : forall present, has_property "name" vars = Some present ->
            outcome
            = (if negb present
               then error id (-32602)%float "Argumentos ausentes para o prompt"
                      (VObj [ ("required", VArr [ VStr "name" ]) ])
               else
                 bind (lift (render hello_template
                               (fun k => to_string (coalesce (get vars k) (str "")))))
                   (fun rendered =>
                      reply id
                        (obj [ ("prompt",
                                 obj [ ("name", str "hello-template");
                                       ("messages",
                                         VArr [ obj [ ("role", str "system");
                                                      ("content", str rendered) ] ]) ]) ])))
              w).
  { intros present Hin. subst outcome. unfold handlePromptsGet, prompts.
    cbv zeta. rewrite Hname, Hvars.
    cbn [find is_str prompt_name String.eqb Ascii.eqb Bool.eqb].
    unfold bind at 1, lift at 1.
    unfold required_missing, obj, str.
    cbn [opt_get nullish get lookup String.eqb Ascii.eqb Bool.eqb
         prompt_inputSchema some_not_in].
    rewrite Hobj. cbn [negb to_string]. rewrite Hin.
    unfold hello_template.
    destruct present; cbn [negb prompt_template]; reflexivity. }
  split; [| split; [| split; [reflexivity | split; [apply render_literal |]]]].
  - intros Hin. rewrite (Hrun false Hin). apply error_spec.
  - intros Hin text Htext. rewrite (Hrun true Hin). cbn [negb].
    unfold bind, lift.
    rewrite (render_hello (fun k => to_string (coalesce (get vars k) (str ""))) text Htext).
    apply reply_spec.
  - split; reflexivity.
Qed.

End Handlers.

(* ================================================================== *)
(** ** The simplified validator *)

Section Validator.
Import Validation.

Lemma validate_object_unfold (value : slot) (required : option (list string))
    (properties : list (string * schema)) (enum : option (list JS.value))
    (path : string) (errors : list error_record) :
  validateAgainstSchema value (SNode (VStr "object") required properties enum)
    path errors
  = if negb (is_record value)
    then (false, (errors ++ [type_error_record path "object"])%list)
    else
      let (valid, errors') :=
        check_required value path
          (match required with Some r => r | None => [] end) true errors in
      each_property value path properties valid errors'.
Proof.
  cbn [validateAgainstSchema is_str String.eqb Ascii.eqb Bool.eqb].
  destruct (negb (is_record value)); [reflexivity |].
  destruct (check_required _ _ _ _ _) as [valid errors'].
  revert valid errors'. induction properties as [| [key child] rest IH];
    intros valid errors'; [reflexivity |].
  cbn [each_property]. destruct (slot_in key value); [| apply IH].
  destruct (validateAgainstSchema _ child _ _). apply IH.
Qed.

Lemma check_required_spec (value : slot) (path : string) (required : list string) :
  forall valid errors,
    check_required value path required valid errors
    = (valid && is_nil (filter (fun key => negb (slot_in key value)) required),
       (errors
        ++ map (required_error_record path)
             (filter (fun key => negb (slot_in key value)) required))%list).
Proof.
  induction required as [| key rest IH]; intros valid errors; cbn [check_required filter].
  - cbn. now rewrite andb_true_r, app_nil_r.
  - destruct (slot_in key value); cbn [negb].
    + apply IH.
    + rewrite IH. cbn [is_nil map]. rewrite andb_false_r.
      now rewrite <- app_assoc.
Qed.

Lemma child_path_spec (path key : string) :
  child_path path key = path ++ "/" ++ escapeJsonPointer key.
Proof.
  unfold child_path. destruct path; reflexivity.
Qed.

(** The validator only appends to [errors], and its verdict does not
    depend on what [errors] held. *)
Lemma validate_frame (sch : schema) :
  forall value path errors,
    validateAgainstSchema value sch path errors
    = (fst (validateAgainstSchema value sch path []),
       (errors ++ snd (validateAgainstSchema value sch path []))%list).
Proof.
  induction sch as [| ty required properties enum IH] using schema_induction;
    intros value path errors.
  - cbn. now rewrite app_nil_r.
  - destruct (is_str ty "object") eqn:Hty.
    + assert (ty = VStr "object") as ->.
      { destruct ty; try discriminate. cbn in Hty.
        apply String.eqb_eq in Hty. now subst. }
      rewrite !validate_object_unfold.
      destruct (negb (is_record value)); [reflexivity |].
      rewrite !check_required_spec. cbn [app].
      generalize (true && is_nil (filter (fun key => negb (slot_in key value))
                                    (match required with Some r => r | None => [] end))).
      generalize (map (required_error_record path)
                    (filter (fun key => negb (slot_in key value))
                       (match required with Some r => r | None => [] end))).
      intros acc valid. revert valid acc errors.
      induction IH as [| [key child] rest Hchild _ IHrest];
        intros valid acc errors.
      * reflexivity.
      * cbn [each_property]. destruct (slot_in key value); [| apply IHrest].
        cbn [snd] in Hchild.
        rewrite (Hchild _ _ (errors ++ acc)%list), (Hchild _ _ acc).
        destruct (validateAgainstSchema (slot_get value key) child
                    (child_path path key) []) as [ok errs].
        cbn [fst snd].
        rewrite <- app_assoc. rewrite (IHrest _ (acc ++ errs)%list errors).
        reflexivity.
    + cbn [validateAgainstSchema]. rewrite Hty.
      destruct (is_str ty "number"), (is_str ty "string"),
        (negb (is_number value)), (negb (is_string value)), enum as [members |];
        try destruct (negb (includes members value));
        cbn; rewrite ?app_nil_r, <- ?app_assoc; reflexivity.
Qed.

Lemma each_property_spec (value : slot) (path : string)
    (properties : list (string * schema)) :
  forall valid errors,
    each_property value path properties valid errors
    = (valid && forallb fst (sub_results value path properties),
       (errors ++ concat (map snd (sub_results value path properties)))%list).
Proof.
  unfold sub_results.
  induction properties as [| [key child] rest IH]; intros valid errors.
  - cbn. now rewrite andb_true_r, app_nil_r.
  - cbn [each_property filter fst]. destruct (slot_in key value); [| apply IH].
    rewrite validate_frame, child_path_spec.
    cbn [map concat forallb fst snd].
    destruct (validateAgainstSchema (slot_get value key) child
                (path ++ "/" ++ escapeJsonPointer key) []) as [ok errs].
    cbn [fst snd]. rewrite IH. rewrite <- app_assoc.
    destruct ok, valid; reflexivity.
Qed.

Lemma escapeJsonPointer_step (c : ascii) (r : string) :
  escapeJsonPointer (String c r)
  = (if Ascii.eqb c "~" then "~0"
     else if Ascii.eqb c "/" then "~1"
     else String c EmptyString) ++ escapeJsonPointer r.
Proof.
  unfold escapeJsonPointer. cbn [replace_char].
  destruct (Ascii.eqb c "~") eqn:Htilde.
  - reflexivity.
  - cbn [replace_char]. destruct (Ascii.eqb c "/"); reflexivity.
Qed.


(** C7, amended. For a schema whose type is not [object] and that carries
    an [enum] list: a value equal to no member gets one error with keyword
    [enum], at the path of the call and listing the members, pushed after
    the errors the same schema without [enum] gives, and the verdict is
    false; a value equal to a member gets exactly the verdict and the errors
    of the schema without [enum]. Without [enum] the schema gives one error
    with keyword [type] when the type is [number] or [string] and the value
    is not of that type, and no error otherwise: the [enum] error comes in
    addition to the [type] error, never instead of it. *)
Theorem enum_check (value : slot) (ty : JS.value) (required : option (list string))
    (properties : list (string * schema)) (members : list JS.value)
    (path : string) (errors : list error_record)
    (Hty : is_str ty "object" = false) :
  let with_enum :=
    validateAgainstSchema value (SNode ty required properties (Some members))
      path errors in
  let without_enum :=
    validateAgainstSchema value (SNode ty required properties None) path errors in
  let not_a_member :=
    {| instancePath := path; keyword := "enum"; params := AllowedValues members;
       message := "must be equal to one of the allowed values" |} in
  let not_a_number :=
    {| instancePath := path; keyword := "type"; params := TypeParam "number";
       message := "must be number" |} in
  let not_a_string :=
    {| instancePath := path; keyword := "type"; params := TypeParam "string";
       message := "must be string" |} in
  (includes members value = false ->
     with_enum = (false, (snd without_enum ++ [not_a_member])%list))
  /\ (includes members value = true -> with_enum = without_enum)
  /\ without_enum
     = (if is_str ty "number"
        then (is_number value,
              (errors ++ if is_number value then [] else [not_a_number])%list)
        else if is_str ty "string"
             then (is_string value,
                   (errors ++ if is_string value then [] else [not_a_string])%list)
             else (true, errors)).
Proof.
  intros with_enum without_enum not_a_member not_a_number not_a_string.
  subst with_enum without_enum not_a_member not_a_number not_a_string.
  cbn [validateAgainstSchema]. rewrite Hty.
  split; [| split]; try intros ->; cbn [negb];
    destruct (is_str ty "number"), (is_str ty "string"),
      (is_number value), (is_string value);
    cbn [negb]; rewrite ?app_nil_r; reflexivity.
Qed.

End Validator.

(* ================================================================== *)
(** ** The server at work on the sample host *)

Section Examples.
#[local] Existing Instance unbounded_stack.
Import Server Validation Sample.

(** A line that is no JSON, and a blank line. *)
Lemma parse_failure_reported_witness :
  (trim "garbage" <> EmptyString
   /\ JSON_parse (Host := Sample.host) "garbage" = None
   /\ sample_on_line "garbage" boot
      = (Ok tt, after boot [parse_error_text ++ Server.send_terminator] []))
  /\ (whitespace_only (bytes [32; 9; 194; 160]%nat)
      /\ sample_on_line (bytes [32; 9; 194; 160]%nat) boot = (Ok tt, boot)).
Proof.
  assert (H1 : trim "garbage" <> EmptyString)
    by (intros H; vm_compute in H; discriminate H).
  assert (H2 : JSON_parse (Host := Sample.host) "garbage" = None)
    by reflexivity.
  assert (H3 : whitespace_only (bytes [32; 9; 194; 160]%nat)).
  { apply (ws_more [32]%nat); [simpl; tauto |].
    apply (ws_more [9]%nat); [simpl; tauto |].
    apply (ws_more [194; 160]%nat); [simpl; tauto |].
    apply ws_empty. }
  split.
  - split; [exact H1 | split; [exact H2 |]].
    exact (proj1 (proj1 (parse_failure_reported (host := Sample.host)
                           "garbage" [] boot) H1 H2)).
  - split; [exact H3 |].
    exact (proj1 (proj2 (parse_failure_reported (host := Sample.host)
                           (bytes [32; 9; 194; 160]%nat) [] boot) H3)).
Defined.

(** 6 / 3 is answered with the text 2, and 1 / 0 with the error -32000. *)
Lemma arithmetic_tool_witness :
  let six_by_three := VObj [ ("op", VStr "div"); ("a", VNum 6); ("b", VNum 3) ] in
  let one_by_zero := VObj [ ("op", VStr "div"); ("a", VNum 1); ("b", VNum 0) ] in
  (get six_by_three "op" = VStr "div"
   /\ get six_by_three "a" = VNum 6 /\ get six_by_three "b" = VNum 3
   /\ sample_handleToolsCall (VNum 1) (arithmetic_call six_by_three) boot
      = (Ok tt, after boot [sample_chunk (result_message (VNum 1)
                                            (tool_result (host := Sample.host) 2))] [])
   /\ get (tool_result (host := Sample.host) 2) "content"
      = VArr [ VObj [ ("type", VStr "text"); ("text", VStr "2") ] ])
  /\ (get one_by_zero "b" = VNum 0
      /\ sample_handleToolsCall (VNum 1) (arithmetic_call one_by_zero) boot
         = (Ok tt, after boot [error_text "1" "-32000" "Divisão por zero"] [])).
Proof.
  intros six_by_three one_by_zero.
  pose proof (arithmetic_tool (host := Sample.host) (VNum 1) six_by_three "div"
                6 3 boot eq_refl eq_refl eq_refl) as Hdiv.
  pose proof (arithmetic_tool (host := Sample.host) (VNum 1) one_by_zero "div"
                1 0 boot eq_refl eq_refl eq_refl) as Hzero.
  cbv zeta in Hdiv, Hzero.
  destruct Hdiv as (_ & _ & _ & Hdiv & _).
  destruct Hzero as (_ & _ & _ & _ & Hzero).
  destruct (Hdiv eq_refl eq_refl) as [(Hrun & _ & Htext) _].
  destruct (Hzero eq_refl eq_refl) as (Hrun0 & _).
  split; [split; [| split; [| split; [| split]]] | split].
  - reflexivity.
  - reflexivity.
  - reflexivity.
  - exact Hrun.
  - exact Htext.
  - reflexivity.
  - etransitivity; [exact Hrun0 | vm_compute; reflexivity].
Defined.

(** A sibling of the root is outside: [/srv/demo-rootx/a]. *)
Lemma containment_check_witness :
  let params := VObj [ ("uri", VStr "file:///srv/demo-rootx/a") ] in
  opt_get params "uri" = VStr ("file://" ++ "/srv/demo-rootx/a")
  /\ some_root_contains (ROOTS (host := Sample.host)) "/" "/srv/demo-rootx/a" = false
  /\ sample_handleResourcesRead (VNum 1) params boot
     = (Ok tt,
        after boot
          [ error_text "1" "-32001" "Fora das raízes permitidas (roots)." ] []).
Proof.
  intros params.
  pose proof (containment_check (host := Sample.host) (VNum 1) params
                "/srv/demo-rootx/a" boot eq_refl) as H.
  destruct H as (_ & _ & _ & Hout & _).
  split; [reflexivity | split; [reflexivity |]].
  etransitivity; [exact (Hout eq_refl) | vm_compute; reflexivity].
Defined.

(** The operation [pow] against the schema of [op]. *)
Lemma enum_check_witness :
  let members := [ VStr "add"; VStr "sub"; VStr "mul"; VStr "div" ] in
  let not_a_member :=
    {| instancePath := "/op"; keyword := "enum"; params := AllowedValues members;
       message := "must be equal to one of the allowed values" |} in
  let not_a_string :=
    {| instancePath := "/op"; keyword := "type"; params := TypeParam "string";
       message := "must be string" |} in
  is_str (VStr "string") "object" = false
  /\ includes members (Data (VStr "pow")) = false
  /\ validateAgainstSchema (Data (VStr "pow"))
       (SNode (VStr "string") None [] (Some members)) "/op" []
     = (false, [ not_a_member ])
  /\ validateAgainstSchema (Data (VNum 7))
       (SNode (VStr "string") None [] (Some members)) "/op" []
     = (false, [ not_a_string; not_a_member ]).
Proof.
  intros members not_a_member not_a_string.
  split; [reflexivity | split; [reflexivity | split]].
  - exact (proj1 (enum_check (Data (VStr "pow")) (VStr "string") None [] members
                    "/op" [] eq_refl) eq_refl).
  - exact (proj1 (enum_check (Data (VNum 7)) (VStr "string") None [] members
                    "/op" [] eq_refl) eq_refl).
Defined.

(** C7, as stated, fails on a schema of type [object] that carries an
    [enum]: the number 5, equal to no member, gets the [type] error and no
    error with keyword [enum]; the empty object, equal to no member either,
    gets no error at all. *)
Lemma enum_skipped_on_object_schema :
  let sch := SNode (VStr "object") None [] (Some [ VNum 1 ]) in
  includes [ VNum 1 ] (Data (VNum 5)) = false
  /\ validateAgainstSchema (Data (VNum 5)) sch EmptyString []
     = (false,
        [ {| instancePath := EmptyString; keyword := "type";
             params := TypeParam "object"; message := "must be object" |} ])
  /\ (forall e,
        In e (snd (validateAgainstSchema (Data (VNum 5)) sch EmptyString [])) ->
        keyword e <> "enum")
  /\ includes [ VNum 1 ] (Data (VObj [])) = false
  /\ validateAgainstSchema (Data (VObj [])) sch EmptyString [] = (true, []).
Proof.
  intros sch. repeat match goal with |- _ /\ _ => split end; try reflexivity.
  intros e [<- | []]. discriminate.
Qed.

(** The README's prompt request, and a request without arguments. *)
Lemma prompts_get_contract_witness :
  let params :=
    VObj [ ("name", VStr "hello-template");
           ("arguments", VObj [ ("name", VStr "Luis") ]) ] in
  let vars := VObj [ ("name", VStr "Luis") ] in
  opt_get params "name" = VStr "hello-template"
  /\ coalesce (opt_get params "arguments") (Server.obj []) = vars
  /\ is_object vars = true
  /\ has_property "name" vars = Some true
  /\ sample_handlePromptsGet (VNum 7) params boot
     = (Ok tt,
        after boot
          [ sample_chunk
              (prompt_message (VNum 7) "hello-template"
                 "Olá, Luis! Bem-vindo ao Servidor MCP de demonstração.") ] []).
Proof.
  intros params vars.
  pose proof (prompts_get_contract (host := Sample.host) (VNum 7) params vars boot
                eq_refl eq_refl eq_refl) as H.
  destruct H as (_ & Hpresent & _).
  split; [reflexivity | split; [reflexivity | split; [reflexivity | split]]].
  - reflexivity.
  - exact (Hpresent eq_refl "Luis" eq_refl).
Defined.

(** C9, as stated, fails when [arguments] is a number: the required key
    [name] is absent from it, the test [name in arguments] throws, and the
    request is answered with the internal error -32603, not with -32602.
    It also fails when the key is present with an object that has an own
    [toString] property: [String] throws and the answer is the same
    internal error, not a rendered message. *)
Lemma prompts_get_internal_errors :
  let absent := VObj [ ("name", VStr "hello-template"); ("arguments", VNum 5) ] in
  let opaque :=
    VObj [ ("name", VStr "hello-template");
           ("arguments", VObj [ ("name", VObj [ ("toString", VNum 1) ]) ]) ] in
  let internal message :=
    error_message (VNum 1) (-32603) "Internal error"
      (VObj [ ("message", VStr message) ]) in
  get (get absent "arguments") "name" = VUndef
  /\ sample_handlePromptsGet (VNum 1) absent boot
     = (Throw (TypeError (InOnPrimitive "name" (VNum 5))), boot)
  /\ sample_on_message (request (VNum 1) "prompts/get" absent) boot
     = (Ok tt,
        after boot
          [ sample_chunk
              (internal "Cannot use 'in' operator to search for 'name' in 5") ]
          [])
  /\ has_property "name" (get opaque "arguments") = Some true
  /\ sample_on_message (request (VNum 1) "prompts/get" opaque) boot
     = (Ok tt,
        after boot
          [ sample_chunk (internal "Cannot convert object to primitive value") ] [])
  /\ (-32603)%float <> (-32602)%float.
Proof.
  intros absent opaque internal.
  repeat match goal with |- _ /\ _ => split end;
    try (vm_compute; reflexivity).
  distinct_codes.
Qed.

(** The request [resources/read] without [uri] on the sample host: the
    error -32602 is written without a [data] member. *)
Lemma invalid_uri_error_without_data :
  let err :=
    error_message (VNum 1) (-32602) "URI inválida. Use file://" VUndef in
  sample_handleResourcesRead (VNum 1) (VObj []) boot
  = (Ok tt, after boot [sample_chunk err] [])
  /\ error_code err = VNum (-32602)
  /\ error_data err = VUndef
  /\ sample_chunk err = error_text "1" "-32602" "URI inválida. Use file://".
Proof.
  intros err. repeat match goal with |- _ /\ _ => split end;
    vm_compute; reflexivity.
Qed.


End Examples.

(* ================================================================== *)
(** ** Further properties of the server *)

Ltac quiet_step :=
  lazymatch goal with
  | |- writes_one _ (Server.throw _) => apply writes_throw
  | |- writes_one _ (Server.reply _ _) => apply writes_reply; exact I
  | |- writes_one _ (Server.error _ _ _ _) => apply writes_error; exact I
  | |- writes_one _ (Server.bind (Server.lift _) _) => apply writes_lift; intros
  | |- writes_one _ (Server.try_catch _ _) => apply writes_try_catch; intros
  | |- writes_one _ (if ?c then _ else _) => destruct c; cbv beta iota
  | |- writes_one _ (match ?x with _ => _ end) => destruct x; cbv beta iota
  end.

Section Listener.
#[local] Existing Instance unbounded_stack.
Context {host : Host}.
Import Server.
Local Open Scope js_scope.

Lemma after_after (w : world) (c1 c2 : list string) (t1 t2 : list (callback * Z)) :
  after (after w c1 t1) c2 t2 = after w (c1 ++ c2) (t1 ++ t2).
Proof. unfold after. cbn [stdout timers]. now rewrite !app_assoc. Qed.

Lemma after_nothing (w : world) : after w [] [] = w.
Proof. destruct w. unfold after. cbn. now rewrite !app_nil_r. Qed.

Lemma handlers_write_one (id params : value) :
  writes_one (fun _ => True) (handleToolsList id)
  /\ writes_one (fun _ => True) (handleToolsCall id params)
  /\ writes_one (fun _ => True) (handleResourcesList id)
  /\ writes_one (fun _ => True) (handleResourcesRead id params)
  /\ writes_one (fun _ => True) (handlePromptsList id)
  /\ writes_one (fun _ => True) (handlePromptsGet id params).
Proof.
  repeat match goal with |- _ /\ _ => split end.
  - unfold handleToolsList. repeat quiet_step.
  - unfold handleToolsCall. repeat quiet_step.
  - unfold handleResourcesList. repeat quiet_step.
  - unfold handleResourcesRead. cbv zeta. repeat quiet_step.
  - unfold handlePromptsList. repeat quiet_step.
  - unfold handlePromptsGet. cbv zeta. repeat quiet_step.
Qed.

Lemma dispatch_unknown (id method params : value) :
  known_method method = false ->
  dispatch id method params
  = if negb (is_undefined id)
    then bind (lift (to_string method))
           (fun shown => error id (-32601)%float ("Method not found: " ++ shown) VUndef)
    else ret tt.
Proof.
  unfold known_method, method_names. cbn [existsb]. intros H.
  repeat (apply orb_false_elim in H; destruct H as [?H H]).
  unfold dispatch.
  repeat match goal with
         | E : is_str method ?s = false |- _ => rewrite E; clear E
         end.
  reflexivity.
Qed.

(** One run of the [switch]: [initialize] writes one message and sets the
    timer; any other method throws having written nothing, or writes at most
    one message and sets no timer. *)
Lemma dispatch_step (id method params : value) (w : world) :
  (is_str method "initialize" = true ->
     exists m, dispatch id method params w = (Ok tt, after w [chunk m] [list_changed_timer]))
  /\ (is_str method "initialize" = false ->
      (exists e, dispatch id method params w = (Throw e, w))
      \/ (exists chunks,
            dispatch id method params w = (Ok tt, after w chunks [])
            /\ (List.length chunks <= 1)%nat
            /\ Forall is_message_chunk chunks)).
Proof.
  split; intros Hinit.
  - unfold dispatch. rewrite Hinit. unfold handleInitialize. cbv zeta.
    eexists. unfold bind. rewrite reply_spec. unfold setTimeout, after.
    cbn [stdout timers]. rewrite app_nil_r. reflexivity.
  - assert (Hone : forall c, writes_one (fun _ => True) c ->
               (exists e, c w = (Throw e, w))
               \/ (exists chunks, c w = (Ok tt, after w chunks [])
                                  /\ (List.length chunks <= 1)%nat
                                  /\ Forall is_message_chunk chunks)).
    { intros c Hc. destruct (Hc w) as [He | (m & _ & Hm)]; [now left |].
      right. exists [chunk m]. split; [exact Hm |].
      split; [cbn [List.length]; lia |].
      constructor; [now exists m | constructor]. }
    destruct (handlers_write_one id params) as (H1 & H2 & H3 & H4 & H5 & H6).
    destruct (known_method method) eqn:Hknown.
    + unfold dispatch. rewrite Hinit.
      repeat match goal with
             | |- context [if is_str method ?s then _ else _] =>
                 destruct (is_str method s) eqn:?; [now apply Hone |]
             end.
      unfold known_method, method_names in Hknown. cbn [existsb] in Hknown.
      rewrite Hinit in Hknown.
      repeat match goal with
             | E : is_str method _ = false |- _ => rewrite E in Hknown; clear E
             end.
      discriminate Hknown.
    + rewrite (dispatch_unknown id method params Hknown).
      destruct (is_undefined id); cbn [negb].
      * right. exists []. split; [now rewrite after_nothing |].
        split; [cbn; lia | constructor].
      * apply Hone. repeat quiet_step.
Qed.

(** One message that is neither [null] nor [undefined]: no exception leaves
    the listener, at most one message is written, and a timer is set exactly
    by [initialize]. *)
Lemma on_message_step (msg : value) (w : world) :
  nullish msg = false ->
  exists chunks,
    on_message msg w
    = (Ok tt,
       after w chunks
         (if is_str (get msg "method") "initialize" then [list_changed_timer] else []))
    /\ (List.length chunks <= 1)%nat
    /\ Forall is_message_chunk chunks.
Proof.
  intros Hmsg. unfold on_message. rewrite Hmsg. unfold try_catch.
  destruct (dispatch_step (get msg "id") (get msg "method") (get msg "params") w)
    as [Hinit Hother].
  destruct (is_str (get msg "method") "initialize").
  - destruct (Hinit eq_refl) as [m ->]. exists [chunk m].
    split; [reflexivity |]. split; [cbn [List.length]; lia |].
    constructor; [now exists m | constructor].
  - destruct (Hother eq_refl) as [[e ->] | (chunks & -> & Hlen)].
    + destruct (is_undefined (get msg "id")); cbn [negb].
      * exists []. split; [now rewrite after_nothing |].
        split; [cbn; lia | constructor].
      * rewrite error_spec. eexists [_]. split; [reflexivity |].
        split; [cbn [List.length]; lia |].
        constructor; [now eexists | constructor].
    + now exists chunks.
Qed.

(** One line: the destructuring of [null] throws out of the listener
    having written nothing; any other line returns normally with at most one
    message written and at most one timer set. *)
Lemma on_line_step (line : string) (w : world) :
  on_line line w = (Throw (TypeError DestructureNull), w)
  \/ (exists chunks ts,
        on_line line w = (Ok tt, after w chunks ts)
        /\ (List.length chunks <= 1)%nat /\ (List.length ts <= 1)%nat
        /\ Forall is_message_chunk chunks).
Proof.
  unfold on_line. destruct (trim line =? EmptyString).
  - right. exists [], []. rewrite after_nothing.
    split; [reflexivity |]. repeat split; try (cbn [List.length]; lia).
    constructor.
  - destruct (JSON_parse line) as [msg |].
    + destruct (nullish msg) eqn:Hmsg.
      * left. unfold on_message. now rewrite Hmsg.
      * right.
        destruct (on_message_step msg w Hmsg) as (chunks & -> & Hlen & Hchunks).
        eexists _, _. split; [reflexivity |]. split; [exact Hlen |].
        split; [| exact Hchunks].
        destruct (is_str _ _); cbn; lia.
    + right. rewrite send_spec. eexists [_], [].
      split; [reflexivity |]. split; [cbn [List.length]; lia |].
      split; [cbn [List.length]; lia |].
      constructor; [now eexists | constructor].
Qed.

(** The loop over any list of lines. *)
Lemma run_step (lines : list string) (w : world) :
  exists chunks ts,
    snd (run lines w) = after w chunks ts
    /\ (List.length chunks <= List.length lines)%nat
    /\ (List.length ts <= List.length lines)%nat
    /\ Forall is_message_chunk chunks
    /\ (fst (run lines w) = Ok tt
        \/ fst (run lines w) = Throw (TypeError DestructureNull)).
Proof.
  revert w. induction lines as [| line rest IH]; intros w.
  - exists [], []. rewrite after_nothing. cbn.
    repeat split; try lia; [constructor | now left].
  - cbn [run]. unfold bind.
    destruct (on_line_step line w) as [-> | (c1 & t1 & -> & Hc1 & Ht1 & Hm1)].
    + exists [], []. rewrite after_nothing. cbn.
      repeat split; try lia; [constructor | now right].
    + destruct (IH (after w c1 t1)) as (c2 & t2 & Hw & Hc2 & Ht2 & Hm2 & Hres).
      exists (c1 ++ c2)%list, (t1 ++ t2)%list.
      rewrite Hw, after_after, !length_app. cbn [List.length].
      repeat split; try lia; [now apply Forall_app | exact Hres].
Qed.

(** X2. A line holding the JSON text of [null] ends the loop: the
    destructuring throws outside the [try], nothing is written for that
    line, and the lines after it are never handled. *)
Theorem null_line_stops_the_loop (line : string) (rest : list string) (w : world)
    (Hline : trim line <> EmptyString)
    (Hparse : JSON_parse line = Some VNull) :
  on_line line w = (Throw (TypeError DestructureNull), w)
  /\ run (line :: rest) w = (Throw (TypeError DestructureNull), w).
Proof.
  assert (H : on_line line w = (Throw (TypeError DestructureNull), w)).
  { unfold on_line. apply String.eqb_neq in Hline. now rewrite Hline, Hparse. }
  split; [exact H |]. cbn [run]. unfold bind. now rewrite H.
Qed.

(** X3. A message without [id] whose method matches no [case] is dropped in
    silence, and the method is not even converted to text; this covers
    every JSON value that is not an object (a number, a string, a boolean,
    an array), which has neither [id] nor [method]. *)
Theorem unknown_notification_is_silent (msg : value) (w : world)
    (Hmsg : nullish msg = false)
    (Hid : get msg "id" = VUndef)
    (Hmethod : known_method (get msg "method") = false) :
  on_message msg w = (Ok tt, w).
Proof.
  unfold on_message. rewrite Hmsg, Hid. unfold try_catch.
  rewrite (dispatch_unknown VUndef (get msg "method") (get msg "params") Hmethod).
  reflexivity.
Qed.


End Listener.

Section HandlersFurther.
#[local] Existing Instance unbounded_stack.
Context {host : Host}.
Import Server.
Local Open Scope js_scope.








Lemma scan_entries_spec (root : string) (entries : list (string * bool)) :
  scan_entries root entries = map (resource_descriptor root) (file_names entries).
Proof.
  unfold file_names.
  induction entries as [| [name isFile] rest IH]; [reflexivity |].
  cbn [scan_entries filter snd]. destruct isFile; [| exact IH].
  cbn [map fst]. now rewrite IH.
Qed.

(** X6. The scan of the roots, when every root that exists can be listed:
    the result is what was accumulated, followed, root after root in the
    order of the roots, by one descriptor per regular file directly under
    the root, in the order of the directory; a root that does not exist
    contributes nothing and is no error, and an entry that is not a regular
    file (a directory) is never listed. *)
Theorem scan_roots_lists_files (roots : list string) (out : list value)
    (Hlistable : forall root, In root roots -> fs_existsSync root = true ->
                 exists entries, fs_readdirSync root = inr entries) :
  scan_roots roots out = Ok (out ++ flat_map root_listing roots)%list
  /\ (forall root,
        fs_existsSync root = false -> root_listing root = [])
  /\ (forall root entries,
        fs_existsSync root = true -> fs_readdirSync root = inr entries ->
        root_listing root
        = map (resource_descriptor root) (map fst (filter snd entries))).
Proof.
  split; [| split].
  - revert out. induction roots as [| root rest IH]; intros out.
    + cbn. now rewrite app_nil_r.
    + cbn [scan_roots flat_map]. unfold root_listing at 1.
      destruct (fs_existsSync root) eqn:Hexists; cbn [negb].
      * destruct (Hlistable root (or_introl eq_refl) Hexists) as [entries Hdir].
        rewrite Hdir, scan_entries_spec, IH, app_assoc; [reflexivity |].
        intros r Hr. apply Hlistable. now right.
      * rewrite IH; [reflexivity |]. intros r Hr. apply Hlistable. now right.
  - intros root Hexists. unfold root_listing. now rewrite Hexists.
  - intros root entries Hexists Hdir. unfold root_listing.
    now rewrite Hexists, Hdir.
Qed.

(** X7. [resources/list] when the root exists but cannot be listed: the
    handler throws the error of the file system having written nothing; the
    listener answers a request with the internal error -32603 that carries
    the message of that error, and stays silent for a notification. *)
Theorem unlistable_root_is_internal_error (id : value) (message : string) (w : world)
    (Hexists : fs_existsSync (path_resolve "demo-root") = true)
    (Hdir : fs_readdirSync (path_resolve "demo-root") = inl message) :
  let msg := VObj [ ("id", id); ("method", VStr "resources/list") ] in
  handleResourcesList id w = (Throw (FsError message), w)
  /\ on_message msg w
     = if is_undefined id then (Ok tt, w)
       else (Ok tt,
             after w
               [ chunk (error_message id (-32603) "Internal error"
                          (VObj [ ("message", VStr message) ])) ] []).
Proof.
  intros msg.
  assert (H : handleResourcesList id w = (Throw (FsError message), w)).
  { unfold handleResourcesList, scanResources, ROOTS, bind, lift.
    cbn [scan_roots]. now rewrite Hexists, Hdir. }
  split; [exact H |].
  unfold on_message. cbn [nullish msg]. unfold try_catch.
  change (dispatch (get msg "id") (get msg "method") (get msg "params"))
    with (handleResourcesList id).
  rewrite H. change (get msg "id") with id.
  destruct (is_undefined id); cbn [negb]; [reflexivity |].
  apply error_spec.
Qed.

Lemma resources_read_accepted (id : value) (p : string) (w : world) :
  some_root_contains ROOTS path_sep p = true ->
  handleResourcesRead id (VObj [ ("uri", VStr ("file://" ++ p)) ]) w
  = read_outcome id ("file://" ++ p) p w.
Proof.
  intros Hin. unfold handleResourcesRead.
  change (opt_get (VObj [ ("uri", VStr ("file://" ++ p)) ]) "uri")
    with (VStr ("file://" ++ p)).
  cbv zeta.
  rewrite file_uri_truthy, file_uri_startsWith, file_uri_path, Hin.
  cbn [negb]. unfold try_catch, read_outcome.
  destruct (fs_readFileSync p); [apply error_spec | apply reply_spec].
Qed.

Lemma under_root_contained (rest : string) :
  some_root_contains ROOTS path_sep (path_resolve "demo-root" ++ path_sep ++ rest)
  = true.
Proof.
  apply some_root_contains_iff. exists (path_resolve "demo-root"), rest.
  split; [now left | reflexivity].
Qed.

(** X8. What [resources/list] lists, [resources/read] accepts: on a host
    whose [path.join] puts the separator between the root and the name, the
    URI of every listed file passes the containment check, so reading it is
    answered with the text of the file or with the read failure -32002, and
    never with -32001 or -32602. *)
Theorem listed_resource_is_readable (id : value) (entries : list (string * bool))
    (name : string) (w : world)
    (Hexists : fs_existsSync (path_resolve "demo-root") = true)
    (Hdir : fs_readdirSync (path_resolve "demo-root") = inr entries)
    (Hfile : In (name, true) entries)
    (Hjoin : path_join (path_resolve "demo-root") name
             = path_resolve "demo-root" ++ path_sep ++ name) :
  let root := path_resolve "demo-root" in
  let uri := "file://" ++ path_join root name in
  (exists resources,
      scanResources = Ok resources
      /\ In (resource_descriptor root name) resources)
  /\ get (resource_descriptor root name) "uri" = VStr uri
  /\ handleResourcesRead id (VObj [ ("uri", VStr uri) ]) w
     = read_outcome id uri (path_join root name) w.
Proof.
  intros root uri. subst uri root. split; [| split; [reflexivity |]].
  - exists (map (resource_descriptor (path_resolve "demo-root")) (file_names entries)).
    split.
    + unfold scanResources, ROOTS. cbn [scan_roots].
      rewrite Hexists, Hdir, scan_entries_spec. reflexivity.
    + apply in_map. unfold file_names.
      change name with (fst (name, true)). apply in_map.
      apply filter_In. now split.
  - apply resources_read_accepted. rewrite Hjoin. apply under_root_contained.
Qed.

(** X9. The ways [resources/read] turns a request down before any read: a
    falsy [uri] (absent, [null], [false], [0], the empty string) and a
    string that does not start with [file://] get the error -32602; a
    truthy [uri] that is not a string (a number, [true], an array, an
    object) makes the call of [uri.startsWith] throw a TypeError, nothing
    being written by the handler. Once the path is accepted, a failure of
    the read is answered with -32002 and the message of the failure. *)
Theorem resources_read_rejections (id params : value) (w : world) :
  let uri := opt_get params "uri" in
  let invalid :=
    (Ok tt, after w [chunk (error_message id (-32602) "URI inválida. Use file://" VUndef)] []) in
  (truthy uri = false -> handleResourcesRead id params w = invalid)
  /\ (forall u, uri = VStr u -> startsWith u "file://" = false ->
        handleResourcesRead id params w = invalid)
  /\ (truthy uri = true -> typeof uri <> "string" ->
        handleResourcesRead id params w
        = (Throw (TypeError (NotAFunction "uri.startsWith")), w))
  /\ (forall p message,
        uri = VStr ("file://" ++ p) ->
        some_root_contains ROOTS path_sep p = true ->
        fs_readFileSync p = inl message ->
        handleResourcesRead id params w
        = (Ok tt,
           after w
             [ chunk (error_message id (-32002) "Falha ao ler recurso"
                        (VObj [ ("message", VStr message) ])) ] [])).
Proof.
  intros uri invalid. subst uri invalid.
  split; [| split; [| split]].
  - intros Hfalsy. unfold handleResourcesRead. cbv zeta. rewrite Hfalsy.
    apply error_spec.
  - intros u Hu Hprefix. unfold handleResourcesRead. cbv zeta. rewrite Hu.
    destruct (truthy (VStr u)); cbn [negb]; [| apply error_spec].
    rewrite Hprefix. apply error_spec.
  - intros Htruthy Htype. unfold handleResourcesRead. cbv zeta. rewrite Htruthy.
    cbn [negb]. destruct (opt_get params "uri"); try reflexivity.
    now contradiction Htype.
  - intros p message Hu Hin Hread. unfold handleResourcesRead. cbv zeta. rewrite Hu.
    rewrite file_uri_truthy, file_uri_startsWith, file_uri_path, Hin.
    cbn [negb]. unfold try_catch. rewrite Hread. apply error_spec.
Qed.

(** X10. The containment check compares text and nothing else: a path that
    climbs out of the root through [..] still begins with the root and the
    separator, so it is accepted and the read is attempted on the path as
    written; the answer is never the boundary error -32001. *)
Theorem traversal_is_not_rejected (id : value) (rest : string) (w : world) :
  let path := path_resolve "demo-root" ++ path_sep ++ ".." ++ path_sep ++ rest in
  some_root_contains ROOTS path_sep path = true
  /\ handleResourcesRead id (VObj [ ("uri", VStr ("file://" ++ path)) ]) w
     = read_outcome id ("file://" ++ path) path w.
Proof.
  intros path. split.
  - apply under_root_contained.
  - apply resources_read_accepted, under_root_contained.
Qed.

(** X11. [tools/call] on the arithmetic tool checks the operands before
    the operation: when [a] or [b] is not a number the answer is the error
    -32602 with [expected], whatever [op] is (also for a division by zero
    and for an unknown operation); with two numbers, an [op] that is none of
    the four strings (a missing [op], a number, a string in upper case) gets
    the error -32602 with the list [allowed]. *)
Theorem tools_call_rejections (id args : value) (w : world) :
  let outcome := handleToolsCall id (arithmetic_call args) w in
  let q := coalesce args (Server.obj []) in
  ((typeof (get q "a") =? "number") && (typeof (get q "b") =? "number") = false ->
     outcome
     = (Ok tt,
        after w
          [ chunk (error_message id (-32602) "Parâmetros inválidos"
                     (VObj [ ("expected", VStr "numbers a,b") ])) ] []))
  /\ ((typeof (get q "a") =? "number") && (typeof (get q "b") =? "number") = true ->
      existsb (is_str (get q "op")) [ "add"; "sub"; "mul"; "div" ] = false ->
      outcome
      = (Ok tt,
         after w
           [ chunk (error_message id (-32602) "Operação inválida"
                      (VObj [ ("allowed",
                                VArr [VStr "add"; VStr "sub"; VStr "mul"; VStr "div"]) ])) ]
           [])).
Proof.
  intros outcome q. subst outcome q.
  unfold handleToolsCall, arithmetic_call.
  cbn [coalesce nullish get lookup String.eqb Ascii.eqb Bool.eqb is_str].
  fold (coalesce args (obj [])).
  split.
  - intros Hnum.
    destruct (get (coalesce args (obj [])) "a"), (get (coalesce args (obj [])) "b");
      try discriminate Hnum; apply error_spec.
  - intros Hnum Hop. cbn [existsb] in Hop.
    repeat (apply orb_false_elim in Hop; destruct Hop as [?H Hop]).
    destruct (get (coalesce args (obj [])) "a"), (get (coalesce args (obj [])) "b");
      try discriminate Hnum.
    repeat match goal with
           | E : is_str _ _ = false |- _ => rewrite E; clear E
           end.
    apply error_spec.
Qed.

(** X12. What is not found is named in the error -32601 by its string
    form: an unknown tool, an unknown prompt and, for a request with an
    [id], an unknown method; a missing name reads [undefined]. When the
    string conversion of the name throws (an object with an own [toString]),
    the handler throws that exception instead, having written nothing. *)
Theorem not_found_names_the_request (id params : value) (w : world) :
  let tool := get (coalesce params (Server.obj [])) "name" in
  let prompt := opt_get params "name" in
  let not_found text :=
    (Ok tt, after w [chunk (error_message id (-32601) text VUndef)] []) in
  (is_str tool "calculator_arithmetic" = false ->
     (forall shown, to_string tool = Ok shown ->
        handleToolsCall id params w = not_found ("Tool não encontrada: " ++ shown))
     /\ (forall e, to_string tool = Throw e ->
          handleToolsCall id params w = (Throw e, w)))
  /\ (is_str prompt "hello-template" = false ->
      (forall shown, to_string prompt = Ok shown ->
         handlePromptsGet id params w = not_found ("Prompt não encontrado: " ++ shown))
      /\ (forall e, to_string prompt = Throw e ->
           handlePromptsGet id params w = (Throw e, w)))
  /\ (forall method shown,
        known_method method = false -> id <> VUndef -> to_string method = Ok shown ->
        dispatch id method params w = not_found ("Method not found: " ++ shown))
  /\ to_string VUndef = Ok "undefined".
Proof.
  intros tool prompt not_found. subst tool prompt not_found.
  split; [| split; [| split; [| reflexivity]]].
  - intros Hname. unfold handleToolsCall. cbv zeta. rewrite Hname.
    unfold bind, lift. split.
    + intros shown ->. apply error_spec.
    + now intros e ->.
  - intros Hname. unfold handlePromptsGet, prompts. cbv zeta.
    cbn [find prompt_name]. rewrite Hname. unfold bind, lift. split.
    + intros shown ->. apply error_spec.
    + now intros e ->.
  - intros method shown Hunknown Hid Hshown.
    rewrite (dispatch_unknown id method params Hunknown).
    destruct id; try contradiction; cbn [negb is_undefined];
      unfold bind, lift; rewrite Hshown; apply error_spec.
Qed.

End HandlersFurther.

(* ================================================================== *)
(** ** Further properties of the validator *)

Section ValidatorFurther.
Import Validation.

Lemma has_byte_append (n : nat) (a b : string) :
  has_byte n (a ++ b) = has_byte n a || has_byte n b.
Proof.
  induction a as [| c a IH]; [reflexivity |].
  cbn [append has_byte]. now rewrite IH, orb_assoc.
Qed.

Lemma unescape_escape (s : string) : unescape_pointer (escapeJsonPointer s) = s.
Proof.
  induction s as [| c s IH]; [reflexivity |].
  rewrite escapeJsonPointer_step.
  destruct (Ascii.eqb c "~") eqn:Htilde.
  - apply Ascii.eqb_eq in Htilde. subst c. cbn. now rewrite IH.
  - destruct (Ascii.eqb c "/") eqn:Hslash.
    + apply Ascii.eqb_eq in Hslash. subst c. cbn. now rewrite IH.
    + cbn [append unescape_pointer]. rewrite Htilde. now rewrite IH.
Qed.

(** X13. [escapeJsonPointer] loses nothing and leaves no slash: two
    different keys never get the same path segment, and the segment of a
    key holds no [/], so the slashes of an [instancePath] are exactly the
    separators between segments. A key without [~] and [/] is its own
    segment. *)
Theorem escapeJsonPointer_injective (a b : string) :
  (escapeJsonPointer a = escapeJsonPointer b -> a = b)
  /\ has_byte 47 (escapeJsonPointer a) = false
  /\ (has_byte 126 a = false -> has_byte 47 a = false -> escapeJsonPointer a = a).
Proof.
  split; [| split].
  - intros H. rewrite <- (unescape_escape a), <- (unescape_escape b). now rewrite H.
  - induction a as [| c a IH]; [reflexivity |].
    rewrite escapeJsonPointer_step, has_byte_append, IH, orb_false_r.
    destruct (Ascii.eqb c "~"); [reflexivity |].
    destruct (Ascii.eqb c "/") eqn:Hslash; [reflexivity |].
    cbn [has_byte]. rewrite orb_false_r.
    apply Nat.eqb_neq. intros Hc. apply Ascii.eqb_neq in Hslash. apply Hslash.
    rewrite <- (ascii_nat_embedding c), Hc. reflexivity.
  - induction a as [| c a IH]; [reflexivity |].
    cbn [has_byte]. intros Htilde Hslash.
    apply orb_false_elim in Htilde as [Hc1 Ha1].
    apply orb_false_elim in Hslash as [Hc2 Ha2].
    rewrite escapeJsonPointer_step, (IH Ha1 Ha2).
    assert (H1 : Ascii.eqb c "~" = false).
    { apply Ascii.eqb_neq. intros ->. discriminate Hc1. }
    assert (H2 : Ascii.eqb c "/" = false).
    { apply Ascii.eqb_neq. intros ->. discriminate Hc2. }
    now rewrite H1, H2.
Qed.

Lemma all_accepted_iff_no_error (subs : list (bool * list error_record)) :
  Forall (fun r => fst r = true <-> snd r = []) subs ->
  (forallb fst subs = true <-> concat (map snd subs) = []).
Proof.
  induction 1 as [| [ok errs] rest Hr _ IH]; [now split |].
  cbn [forallb map concat fst snd] in *. rewrite andb_true_iff, IH, Hr.
  split.
  - intros [-> ->]. reflexivity.
  - intros H. apply app_eq_nil in H. exact H.
Qed.

Lemma verdict_from_scratch (sch : schema) :
  forall value path,
    fst (validateAgainstSchema value sch path []) = true
    <-> snd (validateAgainstSchema value sch path []) = [].
Proof.
  induction sch as [| ty required properties enum IH] using schema_induction;
    intros value path.
  - now split.
  - destruct (is_str ty "object") eqn:Hty.
    + assert (ty = VStr "object") as ->.
      { destruct ty; try discriminate. cbn in Hty.
        apply String.eqb_eq in Hty. now subst. }
      rewrite validate_object_unfold.
      destruct (negb (is_record value)); [now split |].
      rewrite check_required_spec, each_property_spec. cbn [fst snd app andb].
      assert (Hsubs : forallb fst (sub_results value path properties) = true
                      <-> concat (map snd (sub_results value path properties)) = []).
      { apply all_accepted_iff_no_error. unfold sub_results.
        apply Forall_map. apply Forall_forall. intros kv Hkv.
        apply filter_In in Hkv as [Hkv _].
        rewrite Forall_forall in IH. apply (IH kv Hkv). }
      rewrite andb_true_iff, Hsubs.
      destruct (filter _ _) as [| key rest]; cbn [is_nil map app].
      * tauto.
      * split; [intros [H _]; discriminate H | discriminate].
    + cbn [validateAgainstSchema]. rewrite Hty.
      destruct (is_str ty "number"), (is_str ty "string"),
        (negb (is_number value)), (negb (is_string value)), enum as [members |];
        try destruct (negb (includes members value));
        cbn; split; congruence.
Qed.

(** X14. The verdict and the error list of the validator agree: it returns
    true exactly when it pushed no error, whatever [errors] held before;
    hence the compiled validator leaves [errors] at [null] exactly when it
    accepts, and a non-empty list exactly when it rejects. *)
Theorem verdict_iff_no_error (sch : schema) (value : slot) (data : JS.value)
    (path : string) (errors : list error_record) :
  (fst (validateAgainstSchema value sch path errors) = true
   <-> snd (validateAgainstSchema value sch path errors) = errors)
  /\ (fst (createSimpleValidator sch data) = true
      <-> snd (createSimpleValidator sch data) = None)
  /\ (fst (createSimpleValidator sch data) = false
      <-> exists e rest, snd (createSimpleValidator sch data) = Some (e :: rest)).
Proof.
  split; [| split].
  - rewrite validate_frame. cbn [fst snd]. rewrite verdict_from_scratch.
    split.
    + intros ->. apply app_nil_r.
    + intros H. rewrite <- (app_nil_r errors) in H at 2.
      now apply app_inv_head in H.
  - unfold createSimpleValidator.
    pose proof (verdict_from_scratch sch (Data data) EmptyString) as H.
    destruct (validateAgainstSchema (Data data) sch EmptyString []) as [ok errs].
    cbn [fst snd] in *. rewrite H. destruct errs; split; congruence.
  - unfold createSimpleValidator.
    pose proof (verdict_from_scratch sch (Data data) EmptyString) as H.
    destruct (validateAgainstSchema (Data data) sch EmptyString []) as [ok errs].
    cbn [fst snd] in *. destruct ok, errs as [| e rest].
    + split; [discriminate | intros (e & rest & He); discriminate He].
    + assert (e :: rest = []) by now apply H. discriminate.
    + assert (false = true) by now apply H. discriminate.
    + split; [intros _; now exists e, rest | reflexivity].
Qed.

Lemma prefix_refl (a : string) : String.prefix a a = true.
Proof. apply prefix_iff. exists EmptyString. symmetry. apply append_nil_r. Qed.

Lemma prefix_trans (a b c : string) :
  String.prefix a b = true -> String.prefix b c = true -> String.prefix a c = true.
Proof.
  rewrite !prefix_iff. intros [r1 ->] [r2 ->]. exists (r1 ++ r2).
  apply append_assoc.
Qed.

Lemma located_under_weaken (path path' : string) (e : error_record) :
  String.prefix path path' = true -> located_under path' e -> located_under path e.
Proof.
  intros Hp [He Hk]. split; [now apply (prefix_trans path path') | exact Hk].
Qed.

Lemma located_from_scratch (sch : schema) :
  forall value path,
    Forall (located_under path) (snd (validateAgainstSchema value sch path [])).
Proof.
  assert (Hhere : forall path kw ps msg,
             In kw keywords ->
             located_under path
               {| instancePath := path; keyword := kw; params := ps; message := msg |}).
  { intros path kw ps msg Hkw. split; [apply prefix_refl | exact Hkw]. }
  induction sch as [| ty required properties enum IH] using schema_induction;
    intros value path.
  - constructor.
  - destruct (is_str ty "object") eqn:Hty.
    + assert (ty = VStr "object") as ->.
      { destruct ty; try discriminate. cbn in Hty.
        apply String.eqb_eq in Hty. now subst. }
      rewrite validate_object_unfold.
      destruct (negb (is_record value)).
      * cbn. constructor; [| constructor]. apply Hhere. cbn. tauto.
      * rewrite check_required_spec, each_property_spec. cbn [fst snd app].
        apply Forall_app. split.
        -- apply Forall_map. apply Forall_forall. intros key _.
           apply Hhere. cbn. tauto.
        -- unfold sub_results. rewrite map_map. apply Forall_concat.
           apply Forall_map. apply Forall_forall. intros kv Hkv.
           apply filter_In in Hkv as [Hkv _].
           rewrite Forall_forall in IH.
           eapply Forall_impl; [| apply (IH kv Hkv)].
           intros e. apply located_under_weaken.
           apply prefix_iff. now eexists.
    + cbn [validateAgainstSchema]. rewrite Hty.
      destruct (is_str ty "number"), (is_str ty "string"),
        (negb (is_number value)), (negb (is_string value)), enum as [members |];
        try destruct (negb (includes members value));
        cbn [fst snd app];
        repeat (constructor; [apply Hhere; cbn; tauto |]); constructor.
Qed.

(** X15. The validator keeps the errors it is given and reports its own
    below the path it is given: the array after the call is the array
    before followed by the new errors, and every new error has a keyword
    among [type], [required] and [enum] and an [instancePath] that extends
    the path of the call. *)
Theorem errors_are_located (sch : schema) (value : slot) (path : string)
    (errors : list error_record) :
  exists found,
    snd (validateAgainstSchema value sch path errors) = (errors ++ found)%list
    /\ Forall (located_under path) found.
Proof.
  exists (snd (validateAgainstSchema value sch path [])). split.
  - now rewrite validate_frame.
  - apply located_from_scratch.
Qed.

End ValidatorFurther.

(* ================================================================== *)
(** ** The registry, and the validators against the handlers *)

Section RegistryFurther.
#[local] Existing Instance unbounded_stack.
Context {host : Host}.
Import Server Validation Registry.
Local Open Scope js_scope.

Lemma map_get_set_string (n : string) (k x : value) (m : list (value * value)) :
  map_get (VStr n) (map_set k x m)
  = if is_str k n then Some x else map_get (VStr n) m.
Proof.
  induction m as [| [k0 y] rest IH]; cbn [map_set map_get].
  - destruct k; cbn; try reflexivity. rewrite String.eqb_sym.
    now destruct (s =? n).
  - destruct (same_value_zero k k0) eqn:Hk; cbn [map_get].
    + destruct k, k0; cbn in Hk |- *; try discriminate Hk; try reflexivity.
      apply String.eqb_eq in Hk. subst s0. rewrite (String.eqb_sym n s).
      now destruct (s =? n).
    + rewrite IH.
      destruct k, k0; cbn in Hk |- *; try reflexivity.
      rewrite (String.eqb_sym n s0).
      destruct (s =? n) eqn:Hs, (s0 =? n) eqn:Hs0; try reflexivity.
      apply String.eqb_eq in Hs, Hs0. subst. now rewrite String.eqb_refl in Hk.
Qed.

Lemma find_last {A} (p : A -> bool) (l : list A) (x : A) :
  find p (l ++ [x])
  = match find p l with
    | Some y => Some y
    | None => if p x then Some x else None
    end.
Proof.
  induction l as [| y l IH]; [reflexivity |].
  cbn [app find]. now destruct (p y).
Qed.

Lemma opt_get_get (v : value) (k : string) : opt_get v k = get v k.
Proof. now destruct v. Qed.

Lemma compile_lookup (n : string) (entries : list value) :
  forall m,
    map_get (VStr n)
      (fold_left
         (fun map entry =>
            if negb (truthy (opt_get entry "name"))
               || negb (truthy (opt_get entry "inputSchema"))
            then map
            else map_set (get entry "name") (get entry "inputSchema") map)
         entries m)
    = match last_registered n entries with
      | Some sch => Some sch
      | None => map_get (VStr n) m
      end.
Proof.
  unfold last_registered.
  induction entries as [| entry rest IH]; intros m; [reflexivity |].
  cbn [fold_left rev]. rewrite IH, find_last.
  destruct (find (registers n) (rev rest)); [reflexivity |].
  unfold registers. rewrite !opt_get_get.
  destruct (truthy (get entry "name")), (truthy (get entry "inputSchema"));
    cbn [negb orb andb]; rewrite ?andb_false_r, ?andb_true_r;
    try (now destruct (is_str (get entry "name") n)).
  rewrite map_get_set_string. now destruct (is_str (get entry "name") n).
Qed.

(** X16. Filing and looking up: after [initializeValidators], the validator
    found under a string name is the one compiled from the last entry that
    has this name and a truthy [inputSchema]; an entry without a name or
    without a schema is skipped, so a name that only such entries bear, and
    the empty name, find nothing. Tools and prompts are filed apart: the
    same name may stand for a tool and for a prompt. Before the
    initialization, and after one that is given no entries, nothing is
    found. *)
Theorem registry_lookup (tools prompts : list value) (n : string) :
  let r := initializeValidators (Some tools) (Some prompts) in
  getToolValidator r (VStr n) = last_registered n tools
  /\ getPromptValidator r (VStr n) = last_registered n prompts
  /\ last_registered EmptyString tools = None
  /\ getToolValidator no_validators (VStr n) = None
  /\ getPromptValidator no_validators (VStr n) = None
  /\ initializeValidators None None = no_validators.
Proof.
  intros r. subst r.
  unfold getToolValidator, getPromptValidator, initializeValidators, compileEntries.
  cbn [toolValidators promptValidators].
  rewrite !compile_lookup.
  split; [now destruct (last_registered n tools) |].
  split; [now destruct (last_registered n prompts) |].
  split; [| split; [| split]; reflexivity].
  unfold last_registered.
  destruct (find (registers EmptyString) (rev tools)) as [entry |] eqn:Hfind;
    [| reflexivity].
  apply find_some in Hfind as [_ Hreg]. unfold registers in Hreg.
  destruct (opt_get entry "name"); try discriminate Hreg.
  cbn in Hreg. destruct s; discriminate Hreg.
Qed.

Lemma slot_in_own (key : string) (props : list (string * value)) :
  mem key Object_prototype_names = false ->
  slot_in key (Data (VObj props))
  = match lookup key props with Some _ => true | None => false end.
Proof. intros H. unfold slot_in, has_own. rewrite H. apply orb_false_r. Qed.

Lemma slot_get_own (key : string) (props : list (string * value)) (x : value) :
  lookup key props = Some x -> slot_get (Data (VObj props)) key = Data x.
Proof. intros H. unfold slot_get. now rewrite H. Qed.

Lemma number_verdict (v : value) (path : string) :
  fst (validateAgainstSchema (Data v) (SNode (VStr "number") None [] None) path [])
  = match v with VNum n => negb (PrimFloat.is_nan n) | _ => false end.
Proof.
  destruct v; try reflexivity.
  cbn [validateAgainstSchema is_str String.eqb Ascii.eqb Bool.eqb is_number].
  now destruct (negb (PrimFloat.is_nan n)).
Qed.

Lemma string_verdict (v : value) (path : string) :
  fst (validateAgainstSchema (Data v) (SNode (VStr "string") None [] None) path [])
  = match v with VStr _ => true | _ => false end.
Proof. now destruct v. Qed.

Lemma operation_verdict (v : value) (path : string) :
  fst (validateAgainstSchema (Data v)
         (SNode (VStr "string") None []
            (Some [ VStr "add"; VStr "sub"; VStr "mul"; VStr "div" ])) path [])
  = match v with
    | VStr s => mem s [ "add"; "sub"; "mul"; "div" ]
    | _ => false
    end.
Proof.
  destruct v; try reflexivity.
  cbn [validateAgainstSchema is_str String.eqb Ascii.eqb Bool.eqb is_string negb
       includes].
  unfold mem. cbn [existsb same_value_zero].
  now destruct ((s =? "add") || ((s =? "sub") || ((s =? "mul") || ((s =? "div") || false)))).
Qed.

Lemma arithmetic_verdict (args : value) :
  fst (createSimpleValidator arithmetic_schema args) = arithmetic_ok args.
Proof.
  destruct args as [| | b | n | s | elems | props]; try reflexivity.
  unfold createSimpleValidator, arithmetic_schema.
  rewrite validate_object_unfold. cbn [is_record negb].
  rewrite check_required_spec, each_property_spec.
  unfold sub_results, arithmetic_ok.
  cbn [filter map fst snd].
  rewrite !slot_in_own by reflexivity.
  destruct (lookup "op" props) as [op |] eqn:Hop;
    destruct (lookup "a" props) as [a |] eqn:Ha;
    destruct (lookup "b" props) as [b |] eqn:Hb;
    cbn [negb is_nil map fst snd forallb andb];
    rewrite ?andb_false_r;
    try (destruct op as [| | ? | ? | ? | ? | ?]; try reflexivity;
         destruct a as [| | ? | ? | ? | ? | ?]; reflexivity);
    try reflexivity.
  rewrite (slot_get_own "op" props op Hop), (slot_get_own "a" props a Ha),
    (slot_get_own "b" props b Hb).
  rewrite operation_verdict, !number_verdict, andb_true_r.
  destruct op; try reflexivity. destruct a; rewrite ?andb_false_r; try reflexivity.
  destruct b; rewrite ?andb_false_r; try reflexivity.
  now rewrite andb_assoc.
Qed.

Lemma tools_call_shape (id args : value) (w : world) :
  handleToolsCall id (arithmetic_call args) w
  = match get (coalesce args (obj [])) "a", get (coalesce args (obj [])) "b" with
    | VNum a, VNum b =>
        let op := get (coalesce args (obj [])) "op" in
        (if is_str op "add" then reply id (tool_result (a + b)%float)
         else if is_str op "sub" then reply id (tool_result (a - b)%float)
         else if is_str op "mul" then reply id (tool_result (a * b)%float)
         else if is_str op "div" then
           if (b =? 0)%float then error id (-32000)%float "Divisão por zero" VUndef
           else reply id (tool_result (a / b)%float)
         else error id (-32602)%float "Operação inválida"
                (obj [ ("allowed", VArr [str "add"; str "sub"; str "mul"; str "div"]) ]))
          w
    | _, _ =>
        error id (-32602)%float "Parâmetros inválidos"
          (obj [ ("expected", str "numbers a,b") ]) w
    end.
Proof.
  unfold handleToolsCall, arithmetic_call.
  cbn [coalesce nullish get lookup String.eqb Ascii.eqb Bool.eqb is_str].
  fold (coalesce args (obj [])).
  destruct (get (coalesce args (obj [])) "a"); try reflexivity.
  destruct (get (coalesce args (obj [])) "b"); reflexivity.
Qed.

(** X17. The compiled validator of the arithmetic tool and the handler of
    [tools/call] draw the same line. The schema of [tools] reads as an
    object schema requiring [op] among the four operations and the numbers
    [a] and [b]. What the validator accepts, the handler never answers with
    -32602: it replies with [a op b], or with -32000 for a division by
    zero. What the validator rejects, the handler answers with -32602,
    unless an operand is NaN (which no JSON text denotes): the validator
    rejects NaN and the handler computes with it. *)
Theorem validator_agrees_with_tool (id args : value) (w : world) :
  let accepted := fst (createSimpleValidator arithmetic_schema args) in
  let outcome := handleToolsCall id (arithmetic_call args) w in
  read_schema tool_inputSchema = Some arithmetic_schema
  /\ run_validator tool_inputSchema args
     = Some (createSimpleValidator arithmetic_schema args)
  /\ (accepted = true ->
      exists op a b,
        get args "op" = VStr op /\ get args "a" = VNum a /\ get args "b" = VNum b
        /\ outcome
           = if (op =? "div") && (b =? 0)%float
             then (Ok tt,
                   after w [chunk (error_message id (-32000) "Divisão por zero" VUndef)] [])
             else (Ok tt,
                   after w [chunk (result_message id (tool_result (apply_op op a b)))] []))
  /\ (accepted = false ->
      (forall n, get args "a" = VNum n -> PrimFloat.is_nan n = false) ->
      (forall n, get args "b" = VNum n -> PrimFloat.is_nan n = false) ->
      exists text data,
        data <> VUndef
        /\ outcome = (Ok tt, after w [chunk (error_message id (-32602) text data)] [])).
Proof.
  intros accepted outcome. subst accepted outcome.
  split; [reflexivity | split; [reflexivity |]].
  rewrite arithmetic_verdict, tools_call_shape. unfold arithmetic_ok. split.
  - destruct args as [| | ? | ? | ? | ? | props]; try discriminate.
    cbn [coalesce nullish get].
    destruct (lookup "op" props) as [[| | ? | ? | op | ? | ?] |]; try discriminate;
      destruct (lookup "a" props) as [[| | ? | a | ? | ? | ?] |]; try discriminate;
      destruct (lookup "b" props) as [[| | ? | b | ? | ? | ?] |]; try discriminate.
    intros Hok. apply andb_true_iff in Hok as [Hok _].
    apply andb_true_iff in Hok as [Hop _].
    exists op, a, b. repeat (split; [reflexivity |]).
    unfold mem in Hop. cbn [existsb] in Hop. cbv zeta. cbn [is_str].
    unfold apply_op.
    destruct (op =? "add") eqn:E1.
    { apply String.eqb_eq in E1. subst op. apply reply_spec. }
    destruct (op =? "sub") eqn:E2.
    { apply String.eqb_eq in E2. subst op. apply reply_spec. }
    destruct (op =? "mul") eqn:E3.
    { apply String.eqb_eq in E3. subst op. apply reply_spec. }
    destruct (op =? "div") eqn:E4; [| discriminate Hop].
    cbn [andb]. destruct (b =? 0)%float; [apply error_spec | apply reply_spec].
  - intros Hrej Ha Hb.
    assert (Hexpected : exists text data,
               data <> VUndef
               /\ error id (-32602)%float "Parâmetros inválidos"
                    (obj [ ("expected", str "numbers a,b") ]) w
                  = (Ok tt, after w [chunk (error_message id (-32602) text data)] [])).
    { eexists _, _. split; [| apply error_spec]. discriminate. }
    destruct args as [| | ? | ? | ? | ? | props]; try exact Hexpected.
    cbn [coalesce nullish get] in *.
    destruct (lookup "a" props) as [[| | ? | a | ? | ? | ?] |]; try exact Hexpected.
    destruct (lookup "b" props) as [[| | ? | b | ? | ? | ?] |]; try exact Hexpected.
    rewrite (Ha a eq_refl), (Hb b eq_refl) in Hrej. cbn [negb] in Hrej.
    cbv zeta.
    assert (Hallowed : exists text data,
               data <> VUndef
               /\ error id (-32602)%float "Operação inválida"
                    (obj [ ("allowed", VArr [str "add"; str "sub"; str "mul"; str "div"]) ]) w
                  = (Ok tt, after w [chunk (error_message id (-32602) text data)] [])).
    { eexists _, _. split; [| apply error_spec]. discriminate. }
    destruct (lookup "op" props) as [[| | ? | ? | op | ? | ?] |]; try exact Hallowed.
    rewrite !andb_true_r in Hrej. unfold mem in Hrej. cbn [existsb] in Hrej.
    repeat (apply orb_false_elim in Hrej; destruct Hrej as [?E Hrej]).
    cbn [is_str]. rewrite E, E0, E1, E2. exact Hallowed.
Qed.

Lemma hello_verdict (args : value) :
  fst (createSimpleValidator hello_schema args)
  = match args with
    | VObj props =>
        match lookup "name" props with
        | Some (VStr _) => true
        | _ => false
        end
    | _ => false
    end.
Proof.
  destruct args as [| | b | n | s | elems | props]; try reflexivity.
  unfold createSimpleValidator, hello_schema.
  rewrite validate_object_unfold. cbn [is_record negb].
  rewrite check_required_spec, each_property_spec.
  unfold sub_results. cbn [filter map fst snd].
  rewrite !slot_in_own by reflexivity.
  destruct (lookup "name" props) as [x |] eqn:Hx;
    cbn [negb is_nil map fst snd forallb andb]; [| reflexivity].
  rewrite (slot_get_own "name" props x Hx), string_verdict, andb_true_r.
  now destruct x.
Qed.

Lemma prompts_get_present (id : value) (props : list (string * value))
    (x : value) (text : string) (w : world) :
  lookup "name" props = Some x ->
  to_string (coalesce x (VStr EmptyString)) = Ok text ->
  handlePromptsGet id (hello_call (VObj props)) w
  = (Ok tt,
     after w
       [ chunk (prompt_message id "hello-template"
                  ("Olá, " ++ text ++ "! Bem-vindo ao Servidor MCP de demonstração.")) ]
       []).
Proof.
  intros Hx Htext. unfold handlePromptsGet, prompts, hello_call. cbv zeta.
  cbn [opt_get nullish get lookup String.eqb Ascii.eqb Bool.eqb coalesce
       find is_str prompt_name].
  unfold bind at 1, lift at 1.
  unfold required_missing, obj, str.
  cbn [opt_get nullish get lookup String.eqb Ascii.eqb Bool.eqb
       prompt_inputSchema some_not_in is_object negb to_string has_property].
  unfold has_own. rewrite Hx. cbn [orb prompt_template].
  unfold bind, lift.
  rewrite (render_hello
             (fun k => to_string
                         (coalesce
                            match lookup k props with
                            | Some v => v
                            | None => VUndef
                            end (VStr EmptyString))) text).
  - apply reply_spec.
  - cbv beta. now rewrite Hx.
Qed.

(** X18. The compiled validator of the prompt is stricter than the handler
    of [prompts/get]. The schema of [hello-template] reads as an object
    schema requiring the string [name]. What the validator accepts, the
    handler renders: the answer is the system message with the name put in
    the template, never an error. The handler only tests that the key is
    there: a number, which the validator rejects, is rendered by its string
    form. *)
Theorem validator_agrees_with_prompt (id args : value) (n : float) (w : world) :
  let rendering text :=
    (Ok tt,
     after w
       [ chunk (prompt_message id "hello-template"
                  ("Olá, " ++ text ++ "! Bem-vindo ao Servidor MCP de demonstração.")) ]
       []) in
  map (fun p => read_schema (prompt_inputSchema p)) prompts = [ Some hello_schema ]
  /\ (fst (createSimpleValidator hello_schema args) = true ->
      exists name,
        get args "name" = VStr name
        /\ handlePromptsGet id (hello_call args) w = rendering name)
  /\ fst (createSimpleValidator hello_schema (VObj [ ("name", VNum n) ])) = false
  /\ handlePromptsGet id (hello_call (VObj [ ("name", VNum n) ])) w
     = rendering (number_to_string n).
Proof.
  intros rendering. subst rendering.
  split; [reflexivity | split; [| split]].
  - rewrite hello_verdict.
    destruct args as [| | ? | ? | ? | ? | props]; try discriminate.
    destruct (lookup "name" props) as [[| | ? | ? | name | ? | ?] |] eqn:Hname;
      try discriminate.
    intros _. exists name. split; [cbn [get]; now rewrite Hname |].
    now apply (prompts_get_present id props (VStr name) name w).
  - now rewrite hello_verdict.
  - now apply (prompts_get_present id _ (VNum n) (number_to_string n) w).
Qed.

End RegistryFurther.

(* ================================================================== *)
(** ** What reaches the output stream *)

Section ValueInduction.
Variable P : value -> Prop.
Hypothesis P_undef : P VUndef.
Hypothesis P_null : P VNull.
Hypothesis P_bool : forall b, P (VBool b).
Hypothesis P_num : forall n, P (VNum n).
Hypothesis P_str : forall s, P (VStr s).
Hypothesis P_arr : forall elems, Forall P elems -> P (VArr elems).
Hypothesis P_obj : forall props, Forall (fun kv => P (snd kv)) props -> P (VObj props).

Fixpoint value_induction (v : value) : P v :=
  match v with
  | VUndef => P_undef
  | VNull => P_null
  | VBool b => P_bool b
  | VNum n => P_num n
  | VStr s => P_str s
  | VArr elems =>
      P_arr elems
        ((fix all (l : list value) : Forall P l :=
            match l with
            | [] => Forall_nil _
            | x :: rest => Forall_cons x (value_induction x) (all rest)
            end) elems)
  | VObj props =>
      P_obj props
        ((fix all (l : list (string * value)) : Forall (fun kv => P (snd kv)) l :=
            match l with
            | [] => Forall_nil _
            | kv :: rest => Forall_cons kv (value_induction (snd kv)) (all rest)
            end) props)
  end.
End ValueInduction.

Section Framing.
#[local] Existing Instance unbounded_stack.
Context {host : Host}.
Import Server.
Local Open Scope js_scope.

Lemma no_control_append (a b : string) :
  no_control (a ++ b) = no_control a && no_control b.
Proof.
  induction a as [| c a IH]; [reflexivity |].
  cbn [append no_control]. now rewrite IH, andb_assoc.
Qed.

Lemma no_control_cons (c : ascii) (s : string) :
  no_control (String c s) = (32 <=? nat_of_ascii c)%nat && no_control s.
Proof. reflexivity. Qed.

Lemma quote_byte_no_control (c : ascii) : no_control (quote_byte c) = true.
Proof. destruct c as [[] [] [] [] [] [] [] []]; reflexivity. Qed.

Lemma quote_no_control (s : string) : no_control (quote s) = true.
Proof.
  unfold quote. rewrite !no_control_append.
  assert (H : no_control (quote_body s) = true).
  { induction s as [| c s IH]; [reflexivity |].
    cbn [quote_body]. now rewrite no_control_append, quote_byte_no_control. }
  now rewrite H.
Qed.

Lemma decimal_no_control (z : Z) : no_control (decimal z) = true.
Proof.
  assert (Hu : forall d, no_control (NilEmpty.string_of_uint d) = true).
  { induction d; cbn; trivial. }
  assert (Hz : forall d, no_control (NilZero.string_of_uint d) = true).
  { intros d. destruct d; try reflexivity; apply (Hu (_ d)) || exact (Hu _). }
  unfold decimal. destruct (Z.to_int z) as [d | d]; cbn [NilZero.string_of_int].
  - apply Hz.
  - cbn [no_control]. now rewrite Hz.
Qed.

Lemma number_no_control (n : float) :
  (forall x, no_control (Number_toString x) = true) ->
  no_control (number_to_string n) = true.
Proof.
  intros Hhost. unfold number_to_string.
  destruct (PrimFloat.is_nan n); [reflexivity |].
  destruct (PrimFloat.is_infinity n); [now destruct (PrimFloat.get_sign n) |].
  destruct (safe_integer n); [apply decimal_no_control | apply Hhost].
Qed.

Lemma concat_no_control (l : list string) :
  Forall (fun s => no_control s = true) l ->
  no_control (String.concat "," l) = true.
Proof.
  induction 1 as [| s rest Hs Hrest IH]; [reflexivity |].
  cbn [String.concat]. destruct rest as [| s' rest']; [exact Hs |].
  now rewrite !no_control_append, Hs, IH.
Qed.

Lemma stringify_no_control (v : value) :
  (forall x, no_control (Number_toString x) = true) ->
  forall s, stringify v = Some s -> no_control s = true.
Proof.
  intros Hhost.
  assert (Hsome : forall a b : string, Some a = Some b -> a = b)
    by (intros a b H; now injection H).
  induction v as [| | b | n | t | elems IH | props IH] using value_induction;
    intros s Hs; cbn [stringify] in Hs; try apply Hsome in Hs; try subst s.
  - discriminate Hs.
  - reflexivity.
  - now destruct b.
  - destruct (PrimFloat.is_finite n); [now apply number_no_control | reflexivity].
  - apply quote_no_control.
  - rewrite !no_control_append.
    rewrite concat_no_control; [reflexivity |].
    induction IH as [| x rest Hx _ IHrest]; [constructor |].
    destruct (stringify x) as [sx |] eqn:Ex; constructor; trivial.
    now apply Hx.
  - rewrite !no_control_append.
    rewrite concat_no_control; [reflexivity |].
    induction IH as [| [k x] rest Hx _ IHrest]; [constructor |].
    cbn [snd] in Hx.
    destruct (stringify x) as [sx |] eqn:Ex; [| exact IHrest].
    constructor; [| exact IHrest].
    rewrite !no_control_append, quote_no_control.
    now rewrite (Hx sx eq_refl).
Qed.

Lemma chunk_no_control (m : value) :
  (forall x, no_control (Number_toString x) = true) ->
  no_control (chunk m) = true.
Proof.
  intros Hhost. unfold chunk, serialize. rewrite no_control_append.
  destruct (stringify m) as [s |] eqn:Hs.
  - now rewrite (stringify_no_control m Hhost s Hs).
  - reflexivity.
Qed.

Lemma no_control_no_line_feed (s : string) :
  no_control s = true -> has_byte 10 s = false /\ has_byte 13 s = false.
Proof.
  induction s as [| c s IH]; [now split |].
  cbn [no_control has_byte]. intros H. apply andb_true_iff in H as [Hc Hs].
  destruct (IH Hs) as [-> ->]. apply Nat.leb_le in Hc.
  split; rewrite orb_false_r; apply Nat.eqb_neq; lia.
Qed.

(** X19. Nothing the server writes holds a control character: on a host
    whose number printing yields none, every chunk [send] writes is free of
    bytes below 32, since JSON.stringify escapes them inside strings,
    whatever text the request carried in its [id], names or arguments. So
    if the output held no control character before, it holds none after any
    list of input lines; in particular no line feed and no carriage return
    ever reaches the output. *)
Theorem output_has_no_control_bytes (lines : list string) (w : world)
    (Hhost : forall x, no_control (Number_toString x) = true)
    (Hbefore : Forall (fun c => no_control c = true) (stdout w)) :
  (forall m, no_control (chunk m) = true)
  /\ Forall (fun c => no_control c = true) (stdout (snd (run lines w)))
  /\ Forall (fun c => has_byte 10 c = false /\ has_byte 13 c = false)
       (stdout (snd (run lines w))).
Proof.
  assert (Hall : Forall (fun c => no_control c = true) (stdout (snd (run lines w)))).
  { destruct (run_step lines w) as (chunks & ts & -> & _ & _ & Hchunks & _).
    unfold after. cbn [stdout]. apply Forall_app. split; [exact Hbefore |].
    eapply Forall_impl; [| exact Hchunks].
    intros c [m ->]. now apply chunk_no_control. }
  split; [intros m; now apply chunk_no_control |].
  split; [exact Hall |].
  eapply Forall_impl; [| exact Hall].
  intros c. apply no_control_no_line_feed.
Qed.

End Framing.

(* ================================================================== *)
(** ** The server on an engine whose stack can run out *)

Section BoundedStack.
Context {host : Host} {stack : Stack}.
Import Server.
Local Open Scope js_scope.

(** C1, amended. Every parsed request line whose [id] is present makes the
    listener write exactly one message, without an exception leaving it,
    provided the engine does not run out of stack on the internal error
    -32603 that carries this [id]; the message is a result reply or an error
    for that [id], and its text carries the [id] member followed by exactly
    one of the members [result] and [error]. This holds for every method,
    known or not, and whether the handler succeeds, rejects its parameters
    or throws, a RangeError of [reply] included. A timer set by [initialize]
    may be pending afterwards. *)
Theorem one_response_per_request (line : string) (msg : value) (w : world)
    (Hline : trim line <> EmptyString)
    (Hparse : JSON_parse line = Some msg)
    (Hid : get msg "id" <> VUndef)
    (Hstack : forall text,
        JSON_stringify_overflows (internal_error (get msg "id") text) = false) :
  exists m ts id_text body,
    on_line line w = (Ok tt, after w [chunk m] ts)
    /\ response_for (get msg "id") m
    /\ stringify (get msg "id") = Some id_text
    /\ (serialize m = envelope id_text (quote "result" ++ ":" ++ body)
        \/ serialize m = envelope id_text (quote "error" ++ ":" ++ body)).
Proof.
  destruct (on_message_responds msg w Hid)
    as [(m & ts & Hm & _ & Hrun) | (text & Hover & _)];
    [| now rewrite Hstack in Hover].
  destruct (stringify_defined _ Hid) as [id_text Htext].
  destruct (response_text _ m id_text Hm Htext) as [body Hbody].
  exists m, ts, id_text, body. repeat split; trivial.
  unfold on_line. apply String.eqb_neq in Hline. now rewrite Hline, Hparse.
Qed.

(** *** The event loop *)

Lemma dispatch_quiet (id method params : value) (w : world) :
  (exists e, dispatch id method params w = (Throw e, w))
  \/ (exists chunks ts,
        dispatch id method params w = (Ok tt, after w chunks ts)
        /\ (List.length chunks <= 1)%nat /\ (List.length ts <= 1)%nat
        /\ Forall is_message_chunk chunks).
Proof.
  assert (Hone : forall c, answers id c ->
             (exists e, c w = (Throw e, w))
             \/ (exists chunks ts,
                   c w = (Ok tt, after w chunks ts)
                   /\ (List.length chunks <= 1)%nat /\ (List.length ts <= 1)%nat
                   /\ Forall is_message_chunk chunks)).
  { intros c Hc. destruct (Hc w) as [He | (m & ts & _ & Hts & Hm)]; [now left |].
    right. exists [chunk m], ts. split; [exact Hm |].
    split; [cbn [List.length]; lia |]. split; [exact Hts |].
    constructor; [now exists m | constructor]. }
  unfold dispatch.
  repeat match goal with
         | |- context [if is_str method ?s then _ else _] =>
             destruct (is_str method s);
             [ apply Hone;
               auto using handleInitialize_answers, handleToolsList_answers,
                 handleToolsCall_answers, handleResourcesList_answers,
                 handleResourcesRead_answers, handlePromptsList_answers,
                 handlePromptsGet_answers | ]
         end.
  destruct (is_undefined id); cbn [negb].
  - right. exists [], []. rewrite after_nothing.
    split; [reflexivity |]. repeat split; try (cbn [List.length]; lia).
    constructor.
  - apply Hone. apply answers_lift. intros shown _. apply answers_error.
Qed.

(** One line, on any engine: at most one message is written and at most one
    timer is set; an exception that leaves the listener has written
    nothing. *)
Lemma on_line_quiet (line : string) (w : world) :
  exists chunks ts,
    snd (on_line line w) = after w chunks ts
    /\ (List.length chunks <= 1)%nat /\ (List.length ts <= 1)%nat
    /\ Forall is_message_chunk chunks
    /\ ends_well (fst (on_line line w)).
Proof.
  assert (Hnothing : forall r, ends_well r ->
             exists chunks ts,
               snd (r, w) = after w chunks ts
               /\ (List.length chunks <= 1)%nat /\ (List.length ts <= 1)%nat
               /\ Forall is_message_chunk chunks
               /\ ends_well (fst (r, w))).
  { intros r Hr. exists [], []. rewrite after_nothing.
    split; [reflexivity |]. repeat split; try (cbn [List.length]; lia);
      [constructor | exact Hr]. }
  assert (Hsend : forall m,
             exists chunks ts,
               snd (send m w) = after w chunks ts
               /\ (List.length chunks <= 1)%nat /\ (List.length ts <= 1)%nat
               /\ Forall is_message_chunk chunks
               /\ ends_well (fst (send m w))).
  { intros m. rewrite send_cases. destruct (JSON_stringify_overflows m).
    - apply Hnothing. right. now right.
    - exists [chunk m], []. split; [reflexivity |].
      repeat split; try (cbn [List.length]; lia);
        [constructor; [now exists m | constructor] | now left]. }
  unfold on_line. destruct (trim line =? EmptyString).
  - apply Hnothing. now left.
  - destruct (JSON_parse line) as [msg |]; [| apply Hsend].
    unfold on_message. destruct (nullish msg).
    + apply Hnothing. right. now left.
    + unfold try_catch.
      destruct (dispatch_quiet (get msg "id") (get msg "method") (get msg "params") w)
        as [[e ->] | (chunks & ts & -> & Hc & Ht & Hm)].
      * destruct (is_undefined (get msg "id")); cbn [negb].
        -- apply Hnothing. now left.
        -- apply Hsend.
      * exists chunks, ts. repeat split; trivial. now left.
Qed.

(** A timer coming due, on any engine: its callback writes at most three
    messages and sets no timer. *)
Lemma fire_quiet (w : world) :
  exists chunks,
    stdout (snd (fire w)) = (stdout w ++ chunks)%list
    /\ (List.length chunks <= 3)%nat
    /\ (List.length (timers (snd (fire w))) <= List.length (timers w))%nat
    /\ Forall is_message_chunk chunks
    /\ ends_well (fst (fire w)).
Proof.
  unfold fire. destruct (timers w) as [| [cb ms] pending] eqn:Hw.
  - exists []. rewrite app_nil_r. cbn [snd fst]. rewrite Hw.
    repeat split; try (cbn [List.length]; lia); [constructor | now left].
  - assert (Hchunk : forall m, is_message_chunk (chunk m)) by (intros m; now exists m).
    destruct cb. unfold run_callback, notify, bind.
    repeat (rewrite send_cases; destruct (JSON_stringify_overflows _));
      cbn [snd fst after stdout timers]; rewrite ?app_nil_r, <- ?app_assoc;
      cbn [app];
      [ exists [] | eexists [_] | eexists [_; _] | eexists [_; _; _] ];
      rewrite ?app_nil_r;
      (split; [reflexivity |]);
      (split; [cbn [List.length]; lia |]);
      (split; [cbn [List.length]; lia |]);
      (split; [repeat (constructor; [apply Hchunk |]); constructor |]);
      unfold ends_well; auto.
Qed.

Lemma event_loop_lines (lines : list string) (w : world) :
  event_loop (map Line lines) w = run lines w.
Proof.
  revert w. induction lines as [| line rest IH]; intros w; [reflexivity |].
  cbn [map event_loop run]. unfold bind.
  destruct (on_line line w) as [[[] | e] w']; [apply IH | reflexivity].
Qed.

(** X1. Whatever lines arrive and whenever the pending timers come due, on
    any engine, the event loop only ever appends to the output: the output
    afterwards is the output before followed by messages, at most one for
    each line and three for each timer that came due; each line sets at
    most one timer; and the only exceptions that can end the loop are the
    TypeError of destructuring a [null] message and the RangeError of a
    stack that ran out in [JSON.stringify]. With no timer coming due the
    event loop is [run]. *)
Theorem run_output_bound (events : list event) (w : world) :
  (exists chunks,
      stdout (snd (event_loop events w)) = (stdout w ++ chunks)%list
      /\ Forall is_message_chunk chunks
      /\ (List.length chunks <= count_lines events + 3 * count_timeouts events)%nat
      /\ (List.length (timers (snd (event_loop events w)))
          <= List.length (timers w) + count_lines events)%nat
      /\ ends_well (fst (event_loop events w)))
  /\ (forall lines, event_loop (map Line lines) w = run lines w).
Proof.
  split; [| intros lines; apply event_loop_lines].
  revert w. induction events as [| e rest IH]; intros w.
  - exists []. rewrite app_nil_r. cbn.
    repeat split; try lia; [constructor | now left].
  - unfold count_lines, count_timeouts in *. destruct e as [line |];
      cbn [event_loop filter is_timeout negb List.length]; unfold bind.
    + destruct (on_line_quiet line w) as (c1 & t1 & Hw & Hc1 & Ht1 & Hm1 & Hres).
      destruct (on_line line w) as [[[] | e] w1]; cbn [fst snd] in Hw, Hres; subst w1.
      * destruct (IH (after w c1 t1)) as (c2 & Hout & Hm2 & Hc2 & Ht2 & Hend).
        exists (c1 ++ c2)%list. rewrite Hout. unfold after in *.
        cbn [stdout timers] in *. rewrite length_app in *.
        repeat split; try lia;
          [now rewrite app_assoc | now apply Forall_app | exact Hend].
      * exists c1. unfold after. cbn [fst snd stdout timers]. rewrite length_app.
        repeat split; try lia; [exact Hm1 | exact Hres].
    + destruct (fire_quiet w) as (c1 & Hw & Hc1 & Ht1 & Hm1 & Hres).
      destruct (fire w) as [[[] | e] w1]; cbn [fst snd] in Hw, Ht1, Hres.
      * destruct (IH w1) as (c2 & Hout & Hm2 & Hc2 & Ht2 & Hend).
        exists (c1 ++ c2)%list. rewrite Hout, Hw, length_app.
        repeat split; try lia;
          [now rewrite app_assoc | now apply Forall_app | exact Hend].
      * exists c1. cbn [fst snd].
        repeat split; try lia; [exact Hw | exact Hm1 | exact Hres].
Qed.

End BoundedStack.

(* ================================================================== *)
(** ** The further properties on the sample host *)

Section FurtherExamples.
#[local] Existing Instance unbounded_stack.
Import Server Validation Registry Sample.

(** The line [null] ends the loop before the request that follows it. *)
Lemma null_line_stops_the_loop_witness :
  trim "null" <> EmptyString
  /\ JSON_parse (Host := Sample.host) "null" = Some VNull
  /\ run (host := Sample.host) [ "null"; line_add ] boot
     = (Throw (TypeError DestructureNull), boot).
Proof.
  assert (H1 : trim "null" <> EmptyString)
    by (intros H; vm_compute in H; discriminate H).
  assert (H2 : JSON_parse (Host := Sample.host) "null" = Some VNull) by reflexivity.
  split; [exact H1 | split; [exact H2 |]].
  exact (proj2 (null_line_stops_the_loop (host := Sample.host)
                  "null" [ line_add ] boot H1 H2)).
Defined.

(** An array is no request: it is dropped in silence. *)
Lemma unknown_notification_is_silent_witness :
  let msg := VArr [ VNum 1; VNum 2 ] in
  nullish msg = false
  /\ get msg "id" = VUndef
  /\ known_method (get msg "method") = false
  /\ sample_on_message msg boot = (Ok tt, boot).
Proof.
  intros msg.
  split; [reflexivity | split; [reflexivity | split; [reflexivity |]]].
  exact (unknown_notification_is_silent (host := Sample.host) msg boot
           eq_refl eq_refl eq_refl).
Defined.


(** The sample root holds the file [hello.txt] and the directory [sub];
    a second root that does not exist adds nothing. *)
Lemma scan_roots_lists_files_witness :
  let roots := [ "/srv/demo-root"; "/srv/nowhere" ] in
  (forall root, In root roots ->
     fs_existsSync (Host := Sample.host) root = true ->
     exists entries, fs_readdirSync (Host := Sample.host) root = inr entries)
  /\ scan_roots (host := Sample.host) roots []
     = Ok [ resource_descriptor (host := Sample.host) "/srv/demo-root" "hello.txt" ].
Proof.
  intros roots.
  assert (H : forall root, In root roots ->
              fs_existsSync (Host := Sample.host) root = true ->
              exists entries, fs_readdirSync (Host := Sample.host) root = inr entries).
  { intros root [<- | [<- | []]] Hexists.
    - eexists. reflexivity.
    - discriminate Hexists. }
  split; [exact H |].
  exact (proj1 (scan_roots_lists_files (host := Sample.host) roots [] H)).
Defined.

(** On the locked host [resources/list] is answered with -32603. *)
Lemma unlistable_root_is_internal_error_witness :
  let message := "EACCES: permission denied, scandir '/srv/demo-root'" in
  fs_existsSync (Host := locked_host) (path_resolve (Host := locked_host) "demo-root")
  = true
  /\ fs_readdirSync (Host := locked_host) (path_resolve (Host := locked_host) "demo-root")
     = inl message
  /\ on_message (host := locked_host)
       (VObj [ ("id", VNum 4); ("method", VStr "resources/list") ]) boot
     = (Ok tt,
        after boot
          [ chunk (host := locked_host)
              (error_message (VNum 4) (-32603) "Internal error"
                 (VObj [ ("message", VStr message) ])) ] []).
Proof.
  intros message.
  split; [reflexivity | split; [reflexivity |]].
  exact (proj2 (unlistable_root_is_internal_error (host := locked_host)
                  (VNum 4) message boot eq_refl eq_refl)).
Defined.

(** The listed [hello.txt] is read back. *)
Lemma listed_resource_is_readable_witness :
  let entries := [ ("hello.txt", true); ("sub", false) ] in
  let root := path_resolve (Host := Sample.host) "demo-root" in
  fs_existsSync (Host := Sample.host) root = true
  /\ fs_readdirSync (Host := Sample.host) root = inr entries
  /\ In ("hello.txt", true) entries
  /\ path_join (Host := Sample.host) root "hello.txt"
     = root ++ path_sep (Host := Sample.host) ++ "hello.txt"
  /\ sample_handleResourcesRead (VNum 5)
       (VObj [ ("uri", VStr "file:///srv/demo-root/hello.txt") ]) boot
     = (Ok tt,
        after boot
          [ sample_chunk
              (contents_message (VNum 5) "file:///srv/demo-root/hello.txt"
                 ("Hello from MCP!" ++ LF)) ] []).
Proof.
  intros entries root.
  assert (Hfile : In ("hello.txt", true) entries) by (left; reflexivity).
  split; [reflexivity | split; [reflexivity | split; [exact Hfile | split]]].
  - reflexivity.
  - exact (proj2 (proj2 (listed_resource_is_readable (host := Sample.host)
                           (VNum 5) entries "hello.txt" boot
                           eq_refl eq_refl Hfile eq_refl))).
Defined.

(** The output of the sample host stays free of control characters, also
    when the [id] of the request holds a line feed. *)
Lemma output_has_no_control_bytes_witness :
  (forall x, no_control (Number_toString (Host := Sample.host) x) = true)
  /\ Forall (fun c => no_control c = true) (stdout boot)
  /\ no_control (sample_chunk (result_message (VStr LF) (VObj []))) = true
  /\ Forall (fun c => no_control c = true)
       (stdout (snd (run (host := Sample.host) [ "garbage"; line_add ] boot))).
Proof.
  assert (H1 : forall x, no_control (Number_toString (Host := Sample.host) x) = true)
    by reflexivity.
  assert (H2 : Forall (fun c => no_control c = true) (stdout boot)) by constructor.
  split; [exact H1 | split; [exact H2 | split]].
  - exact (proj1 (output_has_no_control_bytes (host := Sample.host)
                    [ "garbage"; line_add ] boot H1 H2)
             (result_message (VStr LF) (VObj []))).
  - exact (proj1 (proj2 (output_has_no_control_bytes (host := Sample.host)
                           [ "garbage"; line_add ] boot H1 H2))).
Defined.

(** The line of the README is answered once, with the sum, on the engine
    whose stack holds a thousand levels. *)
Lemma one_response_per_request_witness :
  trim line_add <> EmptyString
  /\ JSON_parse (Host := Sample.host) line_add = Some msg_add
  /\ get msg_add "id" <> VUndef
  /\ (forall text,
        JSON_stringify_overflows (Stack := Sample.stack)
          (internal_error (get msg_add "id") text) = false)
  /\ exists m ts id_text body,
       on_line (host := Sample.host) (stack := Sample.stack) line_add boot
       = (Ok tt, after boot [sample_chunk m] ts)
       /\ response_for (get msg_add "id") m
       /\ stringify (host := Sample.host) (get msg_add "id") = Some id_text
       /\ (serialize (host := Sample.host) m
           = envelope id_text (quote "result" ++ ":" ++ body)
           \/ serialize (host := Sample.host) m
              = envelope id_text (quote "error" ++ ":" ++ body)).
Proof.
  assert (H1 : trim line_add <> EmptyString)
    by (intros H; vm_compute in H; discriminate H).
  assert (H2 : JSON_parse (Host := Sample.host) line_add = Some msg_add)
    by (vm_compute; reflexivity).
  assert (H3 : get msg_add "id" <> VUndef) by discriminate.
  assert (H4 : forall text,
             JSON_stringify_overflows (Stack := Sample.stack)
               (internal_error (get msg_add "id") text) = false)
    by (intros text; reflexivity).
  split; [exact H1 | split; [exact H2 | split; [exact H3 | split; [exact H4 |]]]].
  exact (one_response_per_request (host := Sample.host) (stack := Sample.stack)
           line_add msg_add boot H1 H2 H3 H4).
Defined.

(** C1, as stated, fails for a request whose [id] is nested deeper than the
    stack of the engine holds: [reply] throws a RangeError, the [catch]
    branch calls [error] with the same [id], which throws again, outside any
    [try]. Nothing is written and the exception leaves the listener. *)
Lemma deep_id_is_not_answered :
  let id := deep 1001 in
  let msg := request id "tools/list" VUndef in
  get msg "id" = id
  /\ id <> VUndef
  /\ on_message (host := Sample.host) (stack := Sample.stack) msg boot
     = (Throw (RangeError "Maximum call stack size exceeded"), boot)
  /\ stdout (snd (on_message (host := Sample.host) (stack := Sample.stack) msg boot))
     = [].
Proof.
  intros id msg.
  split; [reflexivity | split; [discriminate |]].
  split; vm_compute; reflexivity.
Qed.

End FurtherExamples.
